(** * DeepClaude: the Claude client (app/clients/claude_client.py)

    A shallow embedding of [ClaudeClient]: the constructor, the request
    encoder at the head of [stream_chat] and the two response loops
    (server-sent-event streaming and single-body), together with the small
    fragment of the Python runtime they rely on ([str] methods, UTF-8
    decoding, [dict.get], truthiness).

    Python [str] is a sequence of Unicode code points and [bytes] a sequence
    of octets; both are kept as such, since [str.strip] is defined on code
    points and [bytes.decode] can fail.  [json.loads] belongs to the Python
    library, not to the repository: the client is stated over an arbitrary
    decoder [json_loads], and a decoder for a fragment of JSON is provided
    to run the client on concrete wire data. *)

From Stdlib Require Import List String Ascii Strings.Byte NArith ZArith Bool Floats Lia.
Import ListNotations.

Set Warnings "-register-all".

Local Open Scope N_scope.
Local Open Scope list_scope.

(** ** Python strings and bytes *)

Module Py.

Definition char := N.
Definition str := list char.
Definition bytes := list byte.

(** A [str] literal from an ASCII Rocq string. *)
Definition lit (s : string) : str := map N_of_ascii (list_ascii_of_string s).

Definition str_eqb (a b : str) : bool :=
  if list_eq_dec N.eq_dec a b then true else false.

(** [s.startswith(prefix)] *)
Fixpoint startswith (prefix s : str) : bool :=
  match prefix, s with
  | [], _ => true
  | _ :: _, [] => false
  | p :: prefix', c :: s' => (p =? c) && startswith prefix' s'
  end.

(** [s[n:]] *)
Definition slice_from (n : nat) (s : str) : str := skipn n s.

(** [str.isspace] on one code point: the code points that CPython's
    [_PyUnicode_IsWhitespace] accepts. *)
Definition isspace (c : char) : bool :=
  ((0x09 <=? c) && (c <=? 0x0D)) || ((0x1C <=? c) && (c <=? 0x20))
  || (c =? 0x85) || (c =? 0xA0) || (c =? 0x1680)
  || ((0x2000 <=? c) && (c <=? 0x200A))
  || (c =? 0x2028) || (c =? 0x2029) || (c =? 0x202F) || (c =? 0x205F)
  || (c =? 0x3000).

Fixpoint lstrip (s : str) : str :=
  match s with
  | [] => []
  | c :: s' => if isspace c then lstrip s' else s
  end.

Definition rstrip (s : str) : str := rev (lstrip (rev s)).

(** [s.strip()] *)
Definition strip (s : str) : str := rstrip (lstrip s).

Definition LF : char := 0x0A.

(** [s.split(sep)] for a one-character separator: never the empty list,
    [''.split(sep) == ['']]. *)
Fixpoint split (sep : char) (s : str) : list str :=
  match s with
  | [] => [[]]
  | c :: s' =>
      if c =? sep then [] :: split sep s'
      else match split sep s' with
           | [] => [[c]]
           | l :: ls => (c :: l) :: ls
           end
  end.

(** [b.decode('utf-8')], strict: [None] stands for [UnicodeDecodeError].
    Overlong forms, surrogates, code points above U+10FFFF and truncated
    sequences are rejected. *)
Definition is_cont (n : N) : bool := (0x80 <=? n) && (n <=? 0xBF).

Fixpoint decode (bs : bytes) : option str :=
  match bs with
  | [] => Some []
  | b0 :: r0 =>
      let n0 := Byte.to_N b0 in
      if n0 <? 0x80 then option_map (cons n0) (decode r0)
      else if n0 <? 0xC2 then None
      else if n0 <? 0xE0 then
        match r0 with
        | b1 :: r1 =>
            let n1 := Byte.to_N b1 in
            if is_cont n1
            then option_map (cons ((n0 - 0xC0) * 64 + (n1 - 0x80))) (decode r1)
            else None
        | _ => None
        end
      else if n0 <? 0xF0 then
        match r0 with
        | b1 :: b2 :: r2 =>
            let n1 := Byte.to_N b1 in
            let n2 := Byte.to_N b2 in
            let cp := (n0 - 0xE0) * 4096 + (n1 - 0x80) * 64 + (n2 - 0x80) in
            if is_cont n1 && is_cont n2 && (0x800 <=? cp)
               && negb ((0xD800 <=? cp) && (cp <=? 0xDFFF))
            then option_map (cons cp) (decode r2)
            else None
        | _ => None
        end
      else if n0 <? 0xF5 then
        match r0 with
        | b1 :: b2 :: b3 :: r3 =>
            let n1 := Byte.to_N b1 in
            let n2 := Byte.to_N b2 in
            let n3 := Byte.to_N b3 in
            let cp := (n0 - 0xF0) * 262144 + (n1 - 0x80) * 4096
                      + (n2 - 0x80) * 64 + (n3 - 0x80) in
            if is_cont n1 && is_cont n2 && is_cont n3
               && (0x10000 <=? cp) && (cp <=? 0x10FFFF)
            then option_map (cons cp) (decode r3)
            else None
        | _ => None
        end
      else None
  end.

(** ** Python values

    The values that [json.loads] produces and that the request payload
    holds: [None], [bool], [int], [float], [str], [list] and [dict].  A
    [dict] is kept as an association list in insertion order; a lookup
    takes the first binding of the key. *)

Inductive value : Type :=
| VNone
| VBool (b : bool)
| VInt (z : Z)
| VFloat (f : float)
| VStr (s : str)
| VList (l : list value)
| VDict (d : list (str * value)).

Definition dict := list (str * value).

Fixpoint lookup {A : Type} (key : str) (d : list (str * A)) : option A :=
  match d with
  | [] => None
  | (k, v) :: d' => if str_eqb key k then Some v else lookup key d'
  end.

(** [bool(v)] *)
Definition truthy (v : value) : bool :=
  match v with
  | VNone => false
  | VBool b => b
  | VInt z => negb (z =? 0)%Z
  | VFloat f => negb (PrimFloat.eqb f 0%float)
  | VStr s => match s with [] => false | _ => true end
  | VList l => match l with [] => false | _ => true end
  | VDict d => match d with [] => false | _ => true end
  end.

(** [v == s] for a [str] literal [s]. *)
Definition eq_str (v : value) (s : str) : bool :=
  match v with
  | VStr t => str_eqb t s
  | _ => false
  end.

(** The exceptions that can arise in [stream_chat]. *)
Inductive exn : Type :=
| ValueError (msg : str)
| AttributeError
| KeyError
| IndexError
| TypeError
| UnicodeDecodeError
| JSONDecodeError
| UnboundLocalError.

(** A computation that returns or raises. *)
Definition result (A : Type) : Type := exn + A.

Definition ret {A : Type} (a : A) : result A := inr a.
Definition raise {A : Type} (e : exn) : result A := inl e.
Definition bind {A B : Type} (m : result A) (k : A -> result B) : result B :=
  match m with
  | inl e => inl e
  | inr a => k a
  end.

(** [obj.get(key, default)]: only a [dict] has the method. *)
Definition get (obj : value) (key : str) (default : value) : result value :=
  match obj with
  | VDict d =>
      ret (match lookup key d with Some v => v | None => default end)
  | _ => raise AttributeError
  end.

(** [obj[0]].  JSON object keys are strings, so a [dict] never has the
    key [0]. *)
Definition item0 (obj : value) : result value :=
  match obj with
  | VList (x :: _) => ret x
  | VList [] => raise IndexError
  | VStr (c :: _) => ret (VStr [c])
  | VStr [] => raise IndexError
  | VDict _ => raise KeyError
  | _ => raise TypeError
  end.

End Py.

Export Py.

Declare Scope py_scope.
Delimit Scope py_scope with py.
Notation "x <- m ;; k" := (bind m (fun x => k))
  (at level 61, m at next level, right associativity) : py_scope.

Local Open Scope py_scope.

(** ** The client *)

Module ClaudeClient.

Definition OPENAI_COMPATIBLE_PROVIDERS : list str :=
  [lit "openrouter"; lit "oneapi"].

(** [x in l] for a list of strings. *)
Definition contains (x : str) (l : list str) : bool := existsb (str_eqb x) l.

Record client : Type := Client {
  api_key : str;
  api_url : str;
  provider : str;
  is_openai_compatible : bool
}.

Definition DEFAULT_API_URL : str := lit "https://api.anthropic.com/v1/messages".

(** [ClaudeClient.__init__].  [BaseClient.__init__] (app/clients/base_client.py)
    is not among the sources; it is taken to store its two arguments as
    [self.api_key] and [self.api_url], which is how [stream_chat] reads the
    key. *)
Definition __init__ (api_key api_url provider : str)
    (is_openai_compatible : bool) : client :=
  {| api_key := api_key;
     api_url := api_url;
     provider := provider;
     is_openai_compatible :=
       is_openai_compatible || contains provider OPENAI_COMPATIBLE_PROVIDERS |}.

Definition headers : Type := list (str * str).

(** [model_arg]: (temperature, top_p, presence_penalty, frequency_penalty) *)
Definition model_arg_t : Type := (float * float * float * float)%type.

(** The message of the [ValueError] for an unsupported provider; its first
    four characters are the code points U+4E0D U+652F U+6301 U+7684. *)
Definition unsupported (provider : str) : exn :=
  ValueError ([0x4E0D; 0x652F; 0x6301; 0x7684] ++ lit "Claude Provider: "
              ++ provider).

(** The head of [stream_chat]: the model override and the headers and
    payload for the provider, or the [ValueError]. *)
Definition stream_chat_request (self : client) (messages : list value)
    (model_arg : model_arg_t) (model : str) (stream : bool)
    : result (headers * dict) :=
  let '(temperature, top_p, presence_penalty, frequency_penalty) := model_arg in
  let model :=
    if str_eqb (provider self) (lit "openrouter")
    then lit "anthropic/claude-3.5-sonnet" else model in
  if str_eqb (provider self) (lit "anthropic") then
    let headers :=
      [ (lit "x-api-key", api_key self);
        (lit "anthropic-version", lit "2023-06-01");
        (lit "content-type", lit "application/json");
        (lit "accept",
         if stream then lit "text/event-stream" else lit "application/json") ] in
    let data :=
      [ (lit "model", VStr model);
        (lit "messages", VList messages);
        (lit "max_tokens", VInt 8192);
        (lit "stream", VBool stream);
        (lit "temperature",
         if (temperature <? 0)%float || (1 <? temperature)%float
         then VInt 1 else VFloat temperature);
        (lit "top_p", VFloat top_p) ] in
    ret (headers, data)
  else if is_openai_compatible self then
    let headers :=
      [ (lit "Authorization", lit "Bearer " ++ api_key self);
        (lit "Content-Type", lit "application/json") ] in
    let headers :=
      if str_eqb (provider self) (lit "openrouter")
      then headers ++
           [ (lit "HTTP-Referer", lit "https://github.com/ErlichLiu/DeepClaude");
             (lit "X-Title", lit "DeepClaude") ]
      else headers in
    let data :=
      [ (lit "model", VStr model);
        (lit "messages", VList messages);
        (lit "stream", VBool stream);
        (lit "temperature",
         if (temperature <? 0)%float || (1 <? temperature)%float
         then VInt 1 else VFloat temperature);
        (lit "top_p", VFloat top_p);
        (lit "presence_penalty", VFloat presence_penalty);
        (lit "frequency_penalty", VFloat frequency_penalty) ] in
    ret (headers, data)
  else raise (unsupported (provider self)).

(** What the generator yields: [(kind, content)]. *)
Definition event : Type := (str * value)%type.

Definition answer (content : value) : event := (lit "answer", content).

(** The body of the [try] for one parsed frame of a streaming response:
    the event it yields, if any, or the exception it raises. *)
Definition stream_frame (self : client) (data : value) : result (list event) :=
  if is_openai_compatible self then
    choices <- get data (lit "choices") (VList []) ;;
    if truthy choices then
      first <- item0 choices ;;
      delta <- get first (lit "delta") (VDict []) ;;
      content <- get delta (lit "content") (VStr []) ;;
      if truthy content then ret [answer content] else ret []
    else ret []
  else if str_eqb (provider self) (lit "anthropic") then
    type <- get data (lit "type") VNone ;;
    if eq_str type (lit "content_block_delta") then
      delta <- get data (lit "delta") (VDict []) ;;
      content <- get delta (lit "text") (VStr []) ;;
      if truthy content then ret [answer content] else ret []
    else ret []
  else raise (unsupported (provider self)).

(** The body of the [try] for the parsed body of a non-streaming response. *)
Definition body_frame (self : client) (response : value) : result (list event) :=
  if contains (provider self) OPENAI_COMPATIBLE_PROVIDERS then
    choices <- get response (lit "choices") (VList []) ;;
    if truthy choices then
      first <- item0 choices ;;
      message <- get first (lit "message") (VDict []) ;;
      content <- get message (lit "content") (VStr []) ;;
      if truthy content then ret [answer content] else ret []
    else ret []
  else if str_eqb (provider self) (lit "anthropic") then
    content_list <- get response (lit "content") (VList []) ;;
    if truthy content_list then
      first <- item0 content_list ;;
      content <- get first (lit "text") (VStr []) ;;
      if truthy content then ret [answer content] else ret []
    else ret []
  else raise (unsupported (provider self)).

(** [except Exception]: the exception is logged and the frame yields
    nothing. *)
Definition logged (r : result (list event)) : list event :=
  match r with
  | inl _ => []
  | inr evs => evs
  end.

(** How the generator ends: it is exhausted or an exception reaches the
    caller. *)
Inductive outcome : Type :=
| Finished
| Raised (e : exn).

(** A run of the response loop: the events yielded in order, how it ended,
    and the chunks of the transport that were never read. *)
Record run : Type := Run {
  events : list event;
  final : outcome;
  unread : list bytes
}.

Definition yields (evs : list event) (r : run) : run :=
  {| events := evs ++ events r; final := final r; unread := unread r |}.

Section Client.

(** [json.loads]: the value of the text, or the exception it raises,
    [JSONDecodeError] for a text that is not JSON. *)
Variable json_loads : str -> result value.

(** Modelled from the spec: [BaseClient._make_request] is not among the
    sources.  The spec gives the transport as [openRequest(headers, body) ->
    lazy sequence of byte chunks]; it is taken as the chunks it delivers
    for a request, read one at a time by the loops below. *)
Variable _make_request : headers -> dict -> list bytes.

(** One data payload of a streaming response, past the [[DONE]] test: the
    [try] with its two handlers, which both log and go on. *)
Definition stream_payload (self : client) (json_str : str) : list event :=
  logged (data <- json_loads json_str ;; stream_frame self data).

(** The [for line in chunk_str.split] loop: the events of the lines and
    whether the generator returned at a [[DONE]] line. *)
Fixpoint stream_lines (self : client) (lines : list str) : list event * bool :=
  match lines with
  | [] => ([], false)
  | line :: rest =>
      if startswith (lit "data: ") line then
        let json_str := slice_from 6 line in
        if str_eqb (strip json_str) (lit "[DONE]") then ([], true)
        else
          let '(evs, returned) := stream_lines self rest in
          (stream_payload self json_str ++ evs, returned)
      else stream_lines self rest
  end.

(** The streaming loop over the chunks of the transport. *)
Fixpoint stream_chunks (self : client) (chunks : list bytes) : run :=
  match chunks with
  | [] => {| events := []; final := Finished; unread := [] |}
  | chunk :: rest =>
      match decode chunk with
      | None => {| events := []; final := Raised UnicodeDecodeError; unread := rest |}
      | Some chunk_str =>
          match strip chunk_str with
          | [] => stream_chunks self rest
          | _ :: _ =>
              let '(evs, returned) := stream_lines self (split LF chunk_str) in
              if returned
              then {| events := evs; final := Finished; unread := rest |}
              else yields evs (stream_chunks self rest)
          end
      end
  end.

(** The non-streaming loop.  [bound] tells whether the local [response] has
    been assigned.  The handler for [JSONDecodeError] logs the text of the
    chunk; the handler for any other exception formats [response], and
    fails with [UnboundLocalError] when it has not been assigned. *)
Fixpoint body_chunks (self : client) (bound : bool) (chunks : list bytes) : run :=
  match chunks with
  | [] => {| events := []; final := Finished; unread := [] |}
  | chunk :: rest =>
      let other_exception :=
        if bound then body_chunks self bound rest
        else {| events := []; final := Raised UnboundLocalError; unread := rest |} in
      match decode chunk with
      | None => other_exception
      | Some text =>
          match json_loads text with
          | inr response =>
              yields (logged (body_frame self response))
                     (body_chunks self true rest)
          | inl JSONDecodeError => body_chunks self bound rest
          | inl _ => other_exception
          end
      end
  end.

(** A call of [stream_chat]: the request handed to the transport, if one
    was, and the run of the response loop. *)
Record call : Type := Call {
  sent : option (headers * dict);
  reply : run
}.

Definition stream_chat (self : client) (messages : list value)
    (model_arg : model_arg_t) (model : str) (stream : bool) : call :=
  match stream_chat_request self messages model_arg model stream with
  | inl e =>
      {| sent := None;
         reply := {| events := []; final := Raised e; unread := [] |} |}
  | inr (headers, data) =>
      {| sent := Some (headers, data);
         reply :=
           if stream
           then stream_chunks self (_make_request headers data)
           else body_chunks self false (_make_request headers data) |}
  end.

End Client.

End ClaudeClient.

(** ** A JSON decoder for concrete runs

    [Json.loads] decodes the fragment of JSON without fractions, exponents,
    [\u] escapes and the non-standard constants [NaN] and [Infinity]; on
    that fragment it follows [json.loads] (whitespace, literals, integers,
    strings, arrays, objects, a repeated key keeps its last value).  No
    theorem about the client depends on it: it instantiates [json_loads]
    where the client is run on wire data. *)

Module Json.

Definition is_ws (c : char) : bool :=
  (c =? 0x20) || (c =? 0x09) || (c =? 0x0A) || (c =? 0x0D).

Fixpoint skip_ws (s : str) : str :=
  match s with
  | [] => []
  | c :: s' => if is_ws c then skip_ws s' else s
  end.

Definition unescape (c : char) : option char :=
  if (c =? 0x22) || (c =? 0x5C) || (c =? 0x2F) then Some c
  else if c =? 0x62 then Some 0x08
  else if c =? 0x66 then Some 0x0C
  else if c =? 0x6E then Some 0x0A
  else if c =? 0x72 then Some 0x0D
  else if c =? 0x74 then Some 0x09
  else None.

Definition push (c : char) (r : option (str * str)) : option (str * str) :=
  match r with
  | Some (t, rest) => Some (c :: t, rest)
  | None => None
  end.

(** The characters of a string up to its closing quote, and what follows. *)
Fixpoint scan_string (s : str) : option (str * str) :=
  match s with
  | [] => None
  | c :: s' =>
      if c =? 0x22 then Some ([], s')
      else if c =? 0x5C then
        match s' with
        | e :: s'' =>
            match unescape e with
            | Some u => push u (scan_string s'')
            | None => None
            end
        | [] => None
        end
      else if c <? 0x20 then None
      else push c (scan_string s')
  end.

Definition is_digit (c : char) : bool := (0x30 <=? c) && (c <=? 0x39).

Fixpoint scan_digits (acc : Z) (s : str) : Z * str :=
  match s with
  | [] => (acc, [])
  | c :: s' =>
      if is_digit c then scan_digits (acc * 10 + Z.of_N (c - 0x30))%Z s'
      else (acc, s)
  end.

Definition scan_int (s : str) : option (Z * str) :=
  let '(negative, digits) :=
    match s with
    | c :: r => if c =? 0x2D then (true, r) else (false, s)
    | [] => (false, s)
    end in
  match digits with
  | d :: r =>
      if is_digit d then
        let '(n, rest) := if d =? 0x30 then (0%Z, r) else scan_digits 0 digits in
        match rest with
        | c :: _ =>
            if (c =? 0x2E) || (c =? 0x65) || (c =? 0x45) then None
            else Some (if negative then (- n)%Z else n, rest)
        | [] => Some (if negative then (- n)%Z else n, rest)
        end
      else None
  | [] => None
  end.

(** [d[k] = v] *)
Fixpoint store (k : str) (v : value) (d : dict) : dict :=
  match d with
  | [] => [(k, v)]
  | (k', v') :: d' =>
      if str_eqb k k' then (k', v) :: d' else (k', v') :: store k v d'
  end.

Fixpoint parse_value (fuel : nat) (s : str) {struct fuel} : option (value * str) :=
  match fuel with
  | O => None
  | S fuel' =>
      let s := skip_ws s in
      if startswith (lit "null") s then Some (VNone, slice_from 4 s)
      else if startswith (lit "true") s then Some (VBool true, slice_from 4 s)
      else if startswith (lit "false") s then Some (VBool false, slice_from 5 s)
      else
        match s with
        | [] => None
        | c :: r =>
            if c =? 0x22 then
              match scan_string r with
              | Some (t, rest) => Some (VStr t, rest)
              | None => None
              end
            else if c =? 0x5B then
              match skip_ws r with
              | c' :: r' =>
                  if c' =? 0x5D then Some (VList [], r')
                  else match parse_elements fuel' r with
                       | Some (vs, rest) => Some (VList vs, rest)
                       | None => None
                       end
              | [] => None
              end
            else if c =? 0x7B then
              match skip_ws r with
              | c' :: r' =>
                  if c' =? 0x7D then Some (VDict [], r')
                  else match parse_members fuel' [] r with
                       | Some (d, rest) => Some (VDict d, rest)
                       | None => None
                       end
              | [] => None
              end
            else
              match scan_int s with
              | Some (n, rest) => Some (VInt n, rest)
              | None => None
              end
        end
  end
with parse_elements (fuel : nat) (s : str) {struct fuel} : option (list value * str) :=
  match fuel with
  | O => None
  | S fuel' =>
      match parse_value fuel' s with
      | Some (v, rest) =>
          match skip_ws rest with
          | c :: r =>
              if c =? 0x2C then
                match parse_elements fuel' r with
                | Some (vs, rest') => Some (v :: vs, rest')
                | None => None
                end
              else if c =? 0x5D then Some ([v], r)
              else None
          | [] => None
          end
      | None => None
      end
  end
with parse_members (fuel : nat) (d : dict) (s : str) {struct fuel} : option (dict * str) :=
  match fuel with
  | O => None
  | S fuel' =>
      match skip_ws s with
      | q :: r =>
          if q =? 0x22 then
            match scan_string r with
            | Some (k, rest) =>
                match skip_ws rest with
                | colon :: r' =>
                    if colon =? 0x3A then
                      match parse_value fuel' r' with
                      | Some (v, rest') =>
                          match skip_ws rest' with
                          | c :: r'' =>
                              if c =? 0x2C then parse_members fuel' (store k v d) r''
                              else if c =? 0x7D then Some (store k v d, r'')
                              else None
                          | [] => None
                          end
                      | None => None
                      end
                    else None
                | [] => None
                end
            | None => None
            end
          else None
      | [] => None
      end
  end.

Definition loads (s : str) : result value :=
  match parse_value (2 * List.length s + 2) s with
  | Some (v, rest) =>
      match skip_ws rest with
      | [] => ret v
      | _ :: _ => raise JSONDecodeError
      end
  | None => raise JSONDecodeError
  end.

(** Wire text is written with an apostrophe for the double quote and a
    vertical bar for the line feed. *)
Definition wire_char (a : ascii) : ascii :=
  if Ascii.eqb a "'"%char then ascii_of_nat 34
  else if Ascii.eqb a "|"%char then ascii_of_nat 10
  else a.

Definition wire (s : string) : bytes :=
  map (fun a => byte_of_ascii (wire_char a)) (list_ascii_of_string s).

Definition text (s : string) : str :=
  map (fun a => N_of_ascii (wire_char a)) (list_ascii_of_string s).

End Json.

(** ** Wire shapes *)

Import ClaudeClient.

(** The field [key] of a JSON object, if the value is an object that has
    it. *)
Definition field (key : str) (v : value) : option value :=
  match v with
  | VDict d => lookup key d
  | _ => None
  end.

(** A native frame [{"type": "content_block_delta", "delta": {"text": t}}],
    whatever other fields it carries. *)
Definition delta_frame (data text : value) : Prop :=
  field (lit "type") data = Some (VStr (lit "content_block_delta")) /\
  exists delta, field (lit "delta") data = Some delta /\
                field (lit "text") delta = Some text.

(** A line that is not an SSE data line. *)
Definition no_data (line : str) : Prop :=
  startswith (lit "data: ") line = false.

(** An SSE data line with the given payload. *)
Definition data_line (payload : str) : str := lit "data: " ++ payload.


(** Each chunk decodes to the corresponding text. *)
Definition decoded (chunks : list bytes) (texts : list str) : Prop :=
  Forall2 (fun chunk chunk_str => decode chunk = Some chunk_str) chunks texts.

(** The line test of the streaming loop, [line.startswith('data: ')]. *)
Definition is_data_line (line : str) : bool := startswith (lit "data: ") line.

(** A line at which the streaming loop returns: a data line whose payload
    strips to [[DONE]]. *)
Definition termination_line (line : str) : Prop :=
  startswith (lit "data: ") line = true /\
  strip (slice_from 6 line) = lit "[DONE]".

(** The four extraction paths of the response loops, as the source chains
    them: [choices[0].get('delta', {}).get('content', '')] and
    [data.get('delta', {}).get('text', '')] when streaming,
    [choices[0].get('message', {}).get('content', '')] and
    [content_list[0].get('text', '')] for a whole body. *)
Definition openai_delta_content (data : value) : result value :=
  choices <- get data (lit "choices") (VList []) ;;
  first <- item0 choices ;;
  delta <- get first (lit "delta") (VDict []) ;;
  get delta (lit "content") (VStr []).

Definition native_delta_text (data : value) : result value :=
  delta <- get data (lit "delta") (VDict []) ;;
  get delta (lit "text") (VStr []).

Definition openai_message_content (response : value) : result value :=
  choices <- get response (lit "choices") (VList []) ;;
  first <- item0 choices ;;
  message <- get first (lit "message") (VDict []) ;;
  get message (lit "content") (VStr []).

Definition native_content_text (response : value) : result value :=
  content_list <- get response (lit "content") (VList []) ;;
  first <- item0 content_list ;;
  get first (lit "text") (VStr []).

(** What an extraction gives rise to: one event for a truthy content,
    nothing for a falsy one or for an extraction that raised. *)
Definition emitted (extraction : result value) : list event :=
  match extraction with
  | inr content => if truthy content then [answer content] else []
  | inl _ => []
  end.

(** The payloads that the streaming loop parses: those of the data lines
    that come before the first termination line. *)
Fixpoint payloads (lines : list str) : list str :=
  match lines with
  | [] => []
  | line :: rest =>
      if is_data_line line then
        if str_eqb (strip (slice_from 6 line)) (lit "[DONE]") then []
        else slice_from 6 line :: payloads rest
      else payloads rest
  end.

(** The events of one body of a non-streamed response. *)
Definition body_events (json_loads : str -> result value)
    (self : client) (text : str) : list event :=
  logged (response <- json_loads text ;; body_frame self response).

(** [json_loads] fails on the text with [JSONDecodeError] only. *)
Definition parses_or_rejects (json_loads : str -> result value)
    (text : str) : Prop :=
  forall e, json_loads text = inl e -> e = JSONDecodeError.

(** The exceptions that working on a parsed frame can raise. *)
Definition shape_error (e : exn) : Prop :=
  e = AttributeError \/ e = KeyError \/ e = TypeError.

(** Clients, requests and wire data for concrete runs. *)
Module Sample.

Definition native : client :=
  __init__ (lit "sk-test") DEFAULT_API_URL (lit "anthropic") false.

Definition native_flagged : client :=
  __init__ (lit "sk-test") DEFAULT_API_URL (lit "anthropic") true.

Definition oneapi : client :=
  __init__ (lit "sk-test") (lit "https://oneapi.example/v1/chat/completions")
           (lit "oneapi") false.

Definition custom_flagged : client :=
  __init__ (lit "sk-test") (lit "https://llm.example/v1/chat/completions")
           (lit "custom") true.

Definition messages : list value :=
  [VDict [(lit "role", VStr (lit "user")); (lit "content", VStr (lit "hi"))]].

Definition model_arg : model_arg_t := (0.5, 1, 0, 0)%float.

Definition model : str := lit "claude-3-5-sonnet-20241022".

(** A transport that delivers the given chunks whatever the request. *)
Definition transport (chunks : list bytes) : headers -> dict -> list bytes :=
  fun _ _ => chunks.

(** The native frame carrying [t], as wire text and as parsed. *)
Definition frame (t : string) : string :=
  ("{'type':'content_block_delta','delta':{'text':'" ++ t ++ "'}}")%string.

Definition parsed_frame (t : string) : value :=
  VDict [(lit "type", VStr (lit "content_block_delta"));
         (lit "delta", VDict [(lit "text", VStr (lit t))])].

(** A chunk that is not UTF-8. *)
Definition garbage : bytes := [xff; xfe].

Definition openrouter : client :=
  __init__ (lit "sk-test") (lit "https://openrouter.ai/api/v1/chat/completions")
           (lit "openrouter") false.

(** The OpenAI-compatible streaming frame carrying [t]. *)
Definition delta_chunk (t : string) : string :=
  ("{'choices':[{'delta':{'content':'" ++ t ++ "'}}]}")%string.

Definition parsed_delta_chunk (t : string) : value :=
  VDict [(lit "choices",
          VList [VDict [(lit "delta", VDict [(lit "content", VStr (lit t))])]])].

(** The OpenAI-compatible body carrying [t]. *)
Definition completion (t : string) : string :=
  ("{'choices':[{'message':{'content':'" ++ t ++ "'}}]}")%string.

Definition parsed_completion (t : string) : value :=
  VDict [(lit "choices",
          VList [VDict [(lit "message", VDict [(lit "content", VStr (lit t))])]])].

(** The native body carrying [t]. *)
Definition body (t : string) : string :=
  ("{'content':[{'text':'" ++ t ++ "'}]}")%string.

Definition parsed_body (t : string) : value :=
  VDict [(lit "content", VList [VDict [(lit "text", VStr (lit t))]])].

End Sample.

(** An event of kind ["answer"] whose content is truthy, so not the empty
    string. *)
Definition carries_content (ev : event) : Prop :=
  fst ev = lit "answer" /\ truthy (snd ev) = true /\ snd ev <> VStr [].

(** ** Facts about the string operations *)

Section StrFacts.

Lemma str_eqb_eq (a b : str) : str_eqb a b = true <-> a = b.
Proof.
  unfold str_eqb. destruct (list_eq_dec N.eq_dec a b); split; congruence.
Qed.

Lemma str_eqb_refl (a : str) : str_eqb a a = true.
Proof. now apply str_eqb_eq. Qed.

Lemma str_eqb_neq (a b : str) : a <> b -> str_eqb a b = false.
Proof.
  intros Hne. destruct (str_eqb a b) eqn:E; [|reflexivity].
  apply str_eqb_eq in E. contradiction.
Qed.

Lemma startswith_app (p s : str) : startswith p (p ++ s) = true.
Proof.
  induction p as [|c p IH]; simpl; [reflexivity|].
  now rewrite N.eqb_refl.
Qed.

Lemma slice_from_app (p s : str) : slice_from (List.length p) (p ++ s) = s.
Proof. unfold slice_from. induction p; simpl; auto. Qed.

Lemma lstrip_nil (s : str) : lstrip s = [] <-> forallb isspace s = true.
Proof.
  induction s as [|c s IH]; simpl; [tauto|].
  destruct (isspace c); simpl; [exact IH|split; discriminate].
Qed.

Lemma lstrip_head (s : str) (c : char) (t : str) :
  lstrip s = c :: t -> isspace c = false.
Proof.
  induction s as [|a s IH]; simpl; [discriminate|].
  destruct (isspace a) eqn:E; [exact IH|].
  intros H. injection H as <- _. exact E.
Qed.

Lemma forallb_rev (f : char -> bool) (s : str) :
  forallb f (rev s) = true -> forallb f s = true.
Proof.
  rewrite !forallb_forall. intros H x Hx. apply H. now apply in_rev in Hx.
Qed.

(** A string strips to nothing exactly when it is all whitespace. *)
Lemma strip_nil (s : str) : strip s = [] <-> forallb isspace s = true.
Proof.
  unfold strip, rstrip. split.
  - intros H.
    assert (H1 : lstrip (rev (lstrip s)) = []).
    { rewrite <- (rev_involutive (lstrip (rev (lstrip s)))), H. reflexivity. }
    apply lstrip_nil, forallb_rev in H1.
    destruct (lstrip s) as [|c t] eqn:E; [now apply lstrip_nil|].
    apply lstrip_head in E. simpl in H1. rewrite E in H1. discriminate.
  - intros H. apply lstrip_nil in H. rewrite H. reflexivity.
Qed.

Lemma strip_not_nil (s : str) (c : char) :
  In c s -> isspace c = false -> strip s <> [].
Proof.
  intros Hin Hc H. apply strip_nil in H.
  rewrite forallb_forall in H. specialize (H c Hin). congruence.
Qed.

Lemma split_not_nil (sep : char) (s : str) : split sep s <> [].
Proof.
  destruct s as [|c s]; simpl; [discriminate|].
  destruct (c =? sep); [discriminate|].
  destruct (split sep s); discriminate.
Qed.


Lemma split_no_sep (sep : char) (s : str) :
  ~ In sep s -> split sep s = [s].
Proof.
  induction s as [|c s IH]; simpl; intros Hn; [reflexivity|].
  destruct (N.eqb_spec c sep) as [->|_]; [tauto|].
  rewrite IH; tauto.
Qed.

(** Every line of a text is made of characters of the text. *)
Lemma split_chars (sep : char) (s : str) :
  Forall (fun l => incl l s) (split sep s).
Proof.
  induction s as [|c s IH]; simpl.
  - repeat constructor. apply incl_refl.
  - destruct (c =? sep).
    + constructor; [apply incl_nil_l|].
      eapply Forall_impl; [|exact IH]. intros l Hl. now apply incl_tl.
    + destruct (split sep s) as [|l ls] eqn:E.
      * exfalso. now apply (split_not_nil sep s).
      * inversion IH; subst. constructor.
        -- apply incl_cons; [now left|now apply incl_tl].
        -- eapply Forall_impl; [|eassumption]. intros l' Hl. now apply incl_tl.
Qed.

(** A line of whitespace is no data line. *)
Lemma space_line_no_data (l : str) :
  forallb isspace l = true -> startswith (lit "data: ") l = false.
Proof.
  destruct l as [|c l]; [reflexivity|].
  cbn [forallb]. intros H. apply andb_prop in H. destruct H as [Hc _].
  change (lit "data: ") with (100 :: lit "ata: "). cbn [startswith].
  destruct (N.eqb_spec 100 c) as [<-|_]; [discriminate|reflexivity].
Qed.

Lemma blank_lines_no_data (s : str) :
  strip s = [] ->
  Forall (fun l => startswith (lit "data: ") l = false) (split LF s).
Proof.
  intros H. apply strip_nil in H. rewrite forallb_forall in H.
  eapply Forall_impl; [|apply split_chars].
  intros l Hl. apply space_line_no_data, forallb_forall.
  intros x Hx. apply H, Hl, Hx.
Qed.

End StrFacts.

(** ** The response loops *)

Section Normalizer.

Variable json_loads : str -> result value.

Abbreviation stream_payload := (ClaudeClient.stream_payload json_loads).
Abbreviation stream_lines := (ClaudeClient.stream_lines json_loads).
Abbreviation stream_chunks := (ClaudeClient.stream_chunks json_loads).
Abbreviation body_chunks := (ClaudeClient.body_chunks json_loads).

Lemma stream_lines_cons (self : client) (line : str) (rest : list str) :
  stream_lines self (line :: rest) =
  if startswith (lit "data: ") line then
    if str_eqb (strip (slice_from 6 line)) (lit "[DONE]") then ([], true)
    else let '(evs, returned) := stream_lines self rest in
         (stream_payload self (slice_from 6 line) ++ evs, returned)
  else stream_lines self rest.
Proof. reflexivity. Qed.

Lemma stream_chunks_cons (self : client) (chunk : bytes) (rest : list bytes) :
  stream_chunks self (chunk :: rest) =
  match decode chunk with
  | None => {| events := []; final := Raised UnicodeDecodeError; unread := rest |}
  | Some chunk_str =>
      match strip chunk_str with
      | [] => stream_chunks self rest
      | _ :: _ =>
          let '(evs, returned) := stream_lines self (split LF chunk_str) in
          if returned
          then {| events := evs; final := Finished; unread := rest |}
          else yields evs (stream_chunks self rest)
      end
  end.
Proof. reflexivity. Qed.

(** The lines of two texts in a row: the second is reached only when the
    first did not return. *)
Lemma stream_lines_app (self : client) (A B : list str) :
  stream_lines self (A ++ B) =
  (fst (stream_lines self A)
     ++ (if snd (stream_lines self A) then [] else fst (stream_lines self B)),
   snd (stream_lines self A) || snd (stream_lines self B)).
Proof.
  induction A as [|line A IH].
  - simpl. now destruct (stream_lines self B).
  - rewrite <- app_comm_cons, !stream_lines_cons.
    destruct (startswith (lit "data: ") line); [|exact IH].
    destruct (str_eqb (strip (slice_from 6 line)) (lit "[DONE]")); [reflexivity|].
    rewrite IH. destruct (stream_lines self A) as [ea ra].
    cbn [fst snd]. now rewrite app_assoc.
Qed.

Lemma stream_lines_no_data (self : client) (N : list str) :
  Forall no_data N -> stream_lines self N = ([], false).
Proof.
  induction 1 as [|line N Hl _ IH]; [reflexivity|].
  rewrite stream_lines_cons. unfold no_data in Hl. now rewrite Hl.
Qed.


Lemma stream_lines_data (self : client) (payload : str) (L : list str) :
  strip payload <> lit "[DONE]" ->
  stream_lines self (data_line payload :: L) =
  (stream_payload self payload ++ fst (stream_lines self L),
   snd (stream_lines self L)).
Proof.
  intros Hd. unfold data_line. rewrite stream_lines_cons, startswith_app.
  change 6%nat with (List.length (lit "data: ")). rewrite slice_from_app.
  rewrite (str_eqb_neq _ _ Hd). now destruct (stream_lines self L).
Qed.


(** On chunks that decode, the streaming loop is the line loop over all
    their lines: skipping a blank chunk is not observable. *)
Lemma stream_chunks_lines (self : client) (chunks : list bytes) (texts : list str) :
  decoded chunks texts ->
  events (stream_chunks self chunks)
    = fst (stream_lines self (flat_map (split LF) texts)) /\
  final (stream_chunks self chunks) = Finished /\
  (snd (stream_lines self (flat_map (split LF) texts)) = false ->
   unread (stream_chunks self chunks) = []).
Proof.
  induction 1 as [|chunk text chunks texts Hd _ IH]; [now repeat split|].
  destruct IH as (IHe & IHf & IHu).
  rewrite stream_chunks_cons, Hd. cbn [flat_map]. rewrite stream_lines_app.
  destruct (strip text) as [|c s] eqn:Hs.
  - rewrite (stream_lines_no_data self _ (blank_lines_no_data text Hs)).
    cbn [fst snd app orb]. now repeat split.
  - destruct (stream_lines self (split LF text)) as [ea [|]]; cbn [fst snd orb].
    + rewrite app_nil_r. repeat split. discriminate.
    + cbn [yields events final unread]. rewrite IHe. now repeat split.
Qed.

(** A native frame with non-empty text yields its text. *)
Lemma stream_payload_delta (self : client) (payload : str) (data : value) (t : str) :
  provider self = lit "anthropic" -> is_openai_compatible self = false ->
  json_loads payload = inr data -> delta_frame data (VStr t) -> t <> [] ->
  stream_payload self payload = [answer (VStr t)].
Proof.
  intros Hp Hc Hj (Hty & delta & Hdelta & Htext) Ht.
  unfold ClaudeClient.stream_payload, stream_frame. rewrite Hj. cbn [bind].
  rewrite Hc, Hp, str_eqb_refl.
  destruct data; try discriminate. cbn [field] in Hty, Hdelta.
  cbn [get bind ret]. rewrite Hty. cbn [eq_str]. rewrite str_eqb_refl, Hdelta.
  destruct delta; try discriminate. cbn [field] in Htext.
  cbn [get bind ret]. rewrite Htext.
  destruct t; [contradiction|reflexivity].
Qed.

(** A payload that fails to parse yields nothing. *)
Lemma stream_payload_malformed (self : client) (payload : str) (e : exn) :
  json_loads payload = inl e -> stream_payload self payload = [].
Proof. intros H. unfold ClaudeClient.stream_payload. now rewrite H. Qed.



(** *** The termination line *)




(** The same chunk cut before the termination line. *)
Lemma head_chunk (self : client) (c_head : bytes) (head : str) :
  decode c_head = Some head ->
  stream_chunks self [c_head] =
  {| events := fst (stream_lines self (split LF head));
     final := Finished;
     unread := [] |}.
Proof.
  intros Hd. rewrite stream_chunks_cons, Hd.
  destruct (strip head) eqn:Hs.
  - now rewrite (stream_lines_no_data self _ (blank_lines_no_data head Hs)).
  - destruct (stream_lines self (split LF head)) as [evs [|]]; [reflexivity|].
    cbn [ClaudeClient.stream_chunks]. unfold yields. cbn [events final unread].
    now rewrite app_nil_r.
Qed.


(** *** One frame *)

(** C6: under the native dialect a parsed data line yields the event
    [("answer", content)] exactly when the [type] field of the object is
    ["content_block_delta"] and the extracted [delta.text] is a truthy
    [content], which for a string means non-empty; it never yields more
    than that one event, and any other [type] yields nothing. *)
Theorem native_frame_event_iff
    (self : client) (json_str : str) (data : value) :
  provider self = lit "anthropic" -> is_openai_compatible self = false ->
  strip json_str <> lit "[DONE]" ->
  json_loads json_str = inr data ->
  exists evs,
    stream_lines self [data_line json_str] = (evs, false) /\
    (forall content,
        evs = [answer content] <->
        field (lit "type") data = Some (VStr (lit "content_block_delta")) /\
        (delta <- get data (lit "delta") (VDict []) ;;
         get delta (lit "text") (VStr [])) = inr content /\
        truthy content = true) /\
    (evs = [] \/ exists content, evs = [answer content]) /\
    (field (lit "type") data <> Some (VStr (lit "content_block_delta")) ->
     evs = []) /\
    (forall s,
        evs = [answer (VStr s)] <->
        field (lit "type") data = Some (VStr (lit "content_block_delta")) /\
        (delta <- get data (lit "delta") (VDict []) ;;
         get delta (lit "text") (VStr [])) = inr (VStr s) /\
        s <> []).
Proof.
  intros Hp Hc Hd Hj. exists (stream_payload self json_str).
  split; [rewrite stream_lines_data by exact Hd; now rewrite app_nil_r|].
  cut ((forall content,
           stream_payload self json_str = [answer content] <->
           field (lit "type") data = Some (VStr (lit "content_block_delta")) /\
           (delta <- get data (lit "delta") (VDict []) ;;
            get delta (lit "text") (VStr [])) = inr content /\
           truthy content = true) /\
       (stream_payload self json_str = [] \/
        exists content, stream_payload self json_str = [answer content]) /\
       (field (lit "type") data <> Some (VStr (lit "content_block_delta")) ->
        stream_payload self json_str = [])).
  { intros (HA & HB & HC).
    split; [exact HA|]. split; [exact HB|]. split; [exact HC|].
    intros s. split.
    - intros E. apply HA in E. destruct E as (H1 & H2 & H3).
      repeat split; try assumption. intros ->. discriminate.
    - intros (H1 & H2 & H3). apply HA. repeat split; try assumption.
      destruct s; [contradiction|reflexivity]. }
  unfold ClaudeClient.stream_payload, stream_frame.
  rewrite Hj. cbn [bind]. rewrite Hc, Hp, str_eqb_refl.
  unfold logged, answer, bind, get, ret, raise, field, eq_str.
  destruct data as [| | | | |l|d];
    try (repeat split; try (now left); intros; intuition discriminate).
  destruct (lookup (lit "type") d) as [[| | | |ty| |]|];
    try (repeat split; try (now left); intros; intuition discriminate).
  destruct (str_eqb ty (lit "content_block_delta")) eqn:Hty.
  - apply str_eqb_eq in Hty. subst ty.
    destruct (lookup (lit "delta") d) as [[| | | | | |dd]|];
      try (repeat split; try (now left); intros; intuition discriminate).
    + destruct (lookup (lit "text") dd) as [c|].
      * destruct (truthy c) eqn:Hc'.
        -- repeat split; try congruence; try (right; now exists c).
           intros (_ & E & _). congruence.
        -- repeat split; try (now left); try discriminate.
           intros (_ & E & T). congruence.
      * repeat split; try (now left); try discriminate.
        intros (_ & E & T). injection E as <-. discriminate.
    + repeat split; try (now left); try discriminate.
      intros (_ & E & T). injection E as <-. discriminate.
  - assert (Hne : Some (VStr ty) <> Some (VStr (lit "content_block_delta"))).
    { intros E. injection E as ->. now rewrite str_eqb_refl in Hty. }
    repeat split; try (now left); intros; intuition discriminate.
Qed.

(** *** Every event carries content *)

Lemma answer_carries_content (content : value) :
  truthy content = true -> carries_content (answer content).
Proof.
  intros H. repeat split; [exact H|].
  cbn [answer snd]. intros ->. discriminate.
Qed.

Lemma logged_bind {A : Type} (m : result A) (k : A -> result (list event)) :
  (forall a, Forall carries_content (logged (k a))) ->
  Forall carries_content (logged (bind m k)).
Proof. intros H. destruct m as [e|a]; [constructor|apply H]. Qed.

Ltac frame_content :=
  repeat first
    [ apply logged_bind; intro
    | match goal with
      | |- context [if truthy ?v then _ else _] => destruct (truthy v) eqn:?
      end
    | constructor; [now apply answer_carries_content|]
    | constructor ].

Lemma stream_frame_content (self : client) (data : value) :
  Forall carries_content (logged (stream_frame self data)).
Proof.
  unfold stream_frame.
  destruct (is_openai_compatible self); [frame_content|].
  destruct (str_eqb (provider self) (lit "anthropic")); [|constructor].
  apply logged_bind; intro type.
  destruct (eq_str type (lit "content_block_delta")); frame_content.
Qed.

Lemma body_frame_content (self : client) (response : value) :
  Forall carries_content (logged (body_frame self response)).
Proof.
  unfold body_frame.
  destruct (contains (provider self) OPENAI_COMPATIBLE_PROVIDERS); [frame_content|].
  destruct (str_eqb (provider self) (lit "anthropic")); [|constructor].
  frame_content.
Qed.

Lemma stream_payload_content (self : client) (json_str : str) :
  Forall carries_content (stream_payload self json_str).
Proof.
  unfold ClaudeClient.stream_payload.
  apply logged_bind. intros data. apply stream_frame_content.
Qed.

Lemma stream_lines_content (self : client) (lines : list str) :
  Forall carries_content (fst (stream_lines self lines)).
Proof.
  induction lines as [|line lines IH]; [constructor|].
  rewrite stream_lines_cons.
  destruct (startswith (lit "data: ") line); [|exact IH].
  destruct (str_eqb (strip (slice_from 6 line)) (lit "[DONE]")); [constructor|].
  destruct (stream_lines self lines) as [evs returned]. cbn [fst] in *.
  apply Forall_app. split; [apply stream_payload_content|exact IH].
Qed.

Lemma stream_chunks_content (self : client) (chunks : list bytes) :
  Forall carries_content (events (stream_chunks self chunks)).
Proof.
  induction chunks as [|chunk chunks IH]; [constructor|].
  rewrite stream_chunks_cons.
  destruct (decode chunk) as [text|]; [|constructor].
  destruct (strip text); [exact IH|].
  pose proof (stream_lines_content self (split LF text)) as Hl.
  destruct (stream_lines self (split LF text)) as [evs [|]]; cbn [fst] in Hl.
  - exact Hl.
  - unfold yields. cbn [events]. apply Forall_app. now split.
Qed.

Lemma body_chunks_content (self : client) (bound : bool) (chunks : list bytes) :
  Forall carries_content (events (body_chunks self bound chunks)).
Proof.
  revert bound. induction chunks as [|chunk chunks IH]; intros bound; [constructor|].
  cbn [ClaudeClient.body_chunks].
  assert (Hother : Forall carries_content
            (events (if bound then body_chunks self bound chunks
                     else {| events := []; final := Raised UnboundLocalError;
                             unread := chunks |}))).
  { destruct bound; [apply IH|constructor]. }
  destruct (decode chunk) as [text|]; [|exact Hother].
  destruct (json_loads text) as [e|response].
  - destruct e; first [exact Hother|apply IH].
  - unfold yields. cbn [events]. apply Forall_app.
    split; [apply body_frame_content|apply IH].
Qed.

Variable _make_request : headers -> dict -> list bytes.

Abbreviation stream_chat := (ClaudeClient.stream_chat json_loads _make_request).

(** C10: every event that [stream_chat] yields, streaming or not and for
    any client, has kind ["answer"] and a truthy content; in particular no
    event carries the empty string, which is also what an absent field
    defaults to. *)
Theorem events_carry_content
    (self : client) (messages : list value) (model_arg : model_arg_t)
    (model : str) (stream : bool) :
  Forall carries_content
         (events (reply (stream_chat self messages model_arg model stream))).
Proof.
  unfold ClaudeClient.stream_chat.
  destruct (stream_chat_request self messages model_arg model stream)
    as [e|[h d]]; cbn [reply events]; [constructor|].
  destruct stream; [apply stream_chunks_content|apply body_chunks_content].
Qed.

End Normalizer.

(** ** The request *)

Section Request.

Variable json_loads : str -> result value.
Variable _make_request : headers -> dict -> list bytes.

Abbreviation stream_chat := (ClaudeClient.stream_chat json_loads _make_request).
Abbreviation stream_payload := (ClaudeClient.stream_payload json_loads).
Abbreviation body_chunks := (ClaudeClient.body_chunks json_loads).

Lemma sent_request (self : client) (messages : list value)
    (model_arg : model_arg_t) (model : str) (stream : bool) :
  sent (stream_chat self messages model_arg model stream) =
  match stream_chat_request self messages model_arg model stream with
  | inl _ => None
  | inr request => Some request
  end.
Proof.
  unfold ClaudeClient.stream_chat.
  now destruct (stream_chat_request self messages model_arg model stream) as [e|[h d]].
Qed.

(** The three outcomes of the head of [stream_chat]. *)
Lemma request_native (self : client) (messages : list value)
    (t p pp fp : float) (model : str) (stream : bool) :
  provider self = lit "anthropic" ->
  stream_chat_request self messages (t, p, pp, fp) model stream =
  inr ([ (lit "x-api-key", api_key self);
         (lit "anthropic-version", lit "2023-06-01");
         (lit "content-type", lit "application/json");
         (lit "accept",
          if stream then lit "text/event-stream" else lit "application/json") ],
       [ (lit "model", VStr model);
         (lit "messages", VList messages);
         (lit "max_tokens", VInt 8192);
         (lit "stream", VBool stream);
         (lit "temperature",
          if (t <? 0)%float || (1 <? t)%float then VInt 1 else VFloat t);
         (lit "top_p", VFloat p) ]).
Proof. intros Hp. unfold stream_chat_request. rewrite Hp. reflexivity. Qed.

Lemma request_openai (self : client) (messages : list value)
    (t p pp fp : float) (model : str) (stream : bool) :
  provider self <> lit "anthropic" -> is_openai_compatible self = true ->
  exists h,
    stream_chat_request self messages (t, p, pp, fp) model stream =
    inr (h,
         [ (lit "model",
            VStr (if str_eqb (provider self) (lit "openrouter")
                  then lit "anthropic/claude-3.5-sonnet" else model));
           (lit "messages", VList messages);
           (lit "stream", VBool stream);
           (lit "temperature",
            if (t <? 0)%float || (1 <? t)%float then VInt 1 else VFloat t);
           (lit "top_p", VFloat p);
           (lit "presence_penalty", VFloat pp);
           (lit "frequency_penalty", VFloat fp) ]).
Proof.
  intros Hp Hc. unfold stream_chat_request.
  rewrite (str_eqb_neq _ _ Hp), Hc. eexists. reflexivity.
Qed.

Lemma request_unsupported (self : client) (messages : list value)
    (model_arg : model_arg_t) (model : str) (stream : bool) :
  provider self <> lit "anthropic" -> is_openai_compatible self = false ->
  stream_chat_request self messages model_arg model stream =
  inl (unsupported (provider self)).
Proof.
  intros Hp Hc. unfold stream_chat_request.
  destruct model_arg as [[[t p] pp] fp].
  now rewrite (str_eqb_neq _ _ Hp), Hc.
Qed.

Lemma contains_providers (provider : str) :
  contains provider OPENAI_COMPATIBLE_PROVIDERS = true <->
  provider = lit "openrouter" \/ provider = lit "oneapi".
Proof.
  unfold contains, OPENAI_COMPATIBLE_PROVIDERS. cbn [existsb].
  rewrite !orb_true_iff, !str_eqb_eq. intuition discriminate.
Qed.

(** C4: the temperature of the payload of any request that is sent, in
    either dialect, is [1] when [t < 0] or [t > 1] and is [t] itself
    otherwise; [0] and [1] are sent as they are. *)
Theorem temperature_clamped
    (self : client) (messages : list value) (t p pp fp : float)
    (model : str) (stream : bool) (h : headers) (d : dict) :
  sent (stream_chat self messages (t, p, pp, fp) model stream) = Some (h, d) ->
  ((t <? 0)%float = true \/ (1 <? t)%float = true ->
   lookup (lit "temperature") d = Some (VInt 1)) /\
  ((t <? 0)%float = false -> (1 <? t)%float = false ->
   lookup (lit "temperature") d = Some (VFloat t)) /\
  (t = 0%float -> lookup (lit "temperature") d = Some (VFloat 0)) /\
  (t = 1%float -> lookup (lit "temperature") d = Some (VFloat 1)).
Proof.
  rewrite sent_request. intros Hs.
  assert (Ht : lookup (lit "temperature") d =
               Some (if (t <? 0)%float || (1 <? t)%float
                     then VInt 1 else VFloat t)).
  { destruct (list_eq_dec N.eq_dec (provider self) (lit "anthropic")) as [Hp|Hp].
    - rewrite (request_native self messages t p pp fp model stream Hp) in Hs.
      injection Hs as <- <-. reflexivity.
    - destruct (is_openai_compatible self) eqn:Hc.
      + destruct (request_openai self messages t p pp fp model stream Hp Hc)
          as [h' Hr].
        rewrite Hr in Hs. injection Hs as <- <-. reflexivity.
      + rewrite (request_unsupported self messages _ model stream Hp Hc) in Hs.
        discriminate. }
  rewrite Ht. repeat split.
  - intros [H|H]; rewrite H; [reflexivity|now rewrite orb_true_r].
  - intros H0 H1. now rewrite H0, H1.
  - intros ->. reflexivity.
  - intros ->. reflexivity.
Qed.

(** C5: a client for provider ["openrouter"] sends a request, and its
    model is the fixed string whatever model the caller names. *)
Theorem openrouter_model_fixed
    (api_key api_url : str) (flag : bool) (messages : list value)
    (model_arg : model_arg_t) (model : str) (stream : bool) :
  exists h d,
    sent (stream_chat (__init__ api_key api_url (lit "openrouter") flag)
                      messages model_arg model stream) = Some (h, d) /\
    lookup (lit "model") d = Some (VStr (lit "anthropic/claude-3.5-sonnet")).
Proof.
  destruct model_arg as [[[t p] pp] fp]. rewrite sent_request.
  destruct (request_openai (__init__ api_key api_url (lit "openrouter") flag)
              messages t p pp fp model stream) as [h Hr].
  - discriminate.
  - cbn [is_openai_compatible __init__]. apply orb_true_r.
  - rewrite Hr. eexists. eexists. split; reflexivity.
Qed.

(** C7: the native payload has exactly the keys [model], [messages],
    [max_tokens] (8192), [stream], [temperature] and [top_p], so neither
    penalty; the OpenAI-compatible payload has exactly [model], [messages],
    [stream], [temperature], [top_p], [presence_penalty] and
    [frequency_penalty]. *)
Theorem payload_keys
    (self : client) (messages : list value) (model_arg : model_arg_t)
    (model : str) (stream : bool) :
  (provider self = lit "anthropic" ->
   exists h d,
     sent (stream_chat self messages model_arg model stream) = Some (h, d) /\
     map fst d = [lit "model"; lit "messages"; lit "max_tokens"; lit "stream";
                  lit "temperature"; lit "top_p"] /\
     lookup (lit "max_tokens") d = Some (VInt 8192) /\
     lookup (lit "presence_penalty") d = None /\
     lookup (lit "frequency_penalty") d = None) /\
  (provider self <> lit "anthropic" -> is_openai_compatible self = true ->
   exists h d,
     sent (stream_chat self messages model_arg model stream) = Some (h, d) /\
     map fst d = [lit "model"; lit "messages"; lit "stream"; lit "temperature";
                  lit "top_p"; lit "presence_penalty"; lit "frequency_penalty"]).
Proof.
  destruct model_arg as [[[t p] pp] fp]. rewrite sent_request. split.
  - intros Hp. rewrite (request_native self messages t p pp fp model stream Hp).
    eexists. eexists. repeat split.
  - intros Hp Hc.
    destruct (request_openai self messages t p pp fp model stream Hp Hc) as [h Hr].
    rewrite Hr. eexists. eexists. repeat split.
Qed.

(** C8: a client made for a provider other than ["anthropic"],
    ["openrouter"] and ["oneapi"] without the OpenAI-compatible flag raises
    the [ValueError] without handing any request to the transport, and a
    call hands no request to the transport in that case only. *)
Theorem unsupported_provider_only_failure
    (api_key api_url provider : str) (flag : bool) (messages : list value)
    (model_arg : model_arg_t) (model : str) (stream : bool) :
  (provider <> lit "anthropic" -> provider <> lit "openrouter" ->
   provider <> lit "oneapi" -> flag = false ->
   stream_chat (__init__ api_key api_url provider flag)
               messages model_arg model stream =
   {| sent := None;
      reply := {| events := [];
                  final := Raised (unsupported provider);
                  unread := [] |} |}) /\
  (sent (stream_chat (__init__ api_key api_url provider flag)
                     messages model_arg model stream) = None <->
   provider <> lit "anthropic" /\ provider <> lit "openrouter" /\
   provider <> lit "oneapi" /\ flag = false).
Proof.
  assert (Hcompat : is_openai_compatible (__init__ api_key api_url provider flag)
                    = false <->
                    provider <> lit "openrouter" /\ provider <> lit "oneapi" /\
                    flag = false).
  { cbn [is_openai_compatible __init__]. rewrite orb_false_iff.
    pose proof (contains_providers provider) as Hc.
    destruct (contains provider OPENAI_COMPATIBLE_PROVIDERS).
    - split; [intros [_ H]; discriminate|].
      intros (H1 & H2 & _). destruct (proj1 Hc eq_refl); contradiction.
    - split.
      + intros [-> _]. repeat split; intros ->;
          (assert (false = true) by (apply Hc; auto)); discriminate.
      + intros (_ & _ & ->). now split. }
  split.
  - intros Ha Ho H1 Hf. unfold ClaudeClient.stream_chat.
    rewrite request_unsupported; [reflexivity|exact Ha|].
    apply Hcompat. now repeat split.
  - rewrite sent_request. destruct model_arg as [[[t p] pp] fp].
    destruct (list_eq_dec N.eq_dec provider (lit "anthropic")) as [Hp|Hp].
    + rewrite request_native by exact Hp. split; [discriminate|tauto].
    + destruct (is_openai_compatible (__init__ api_key api_url provider flag))
        eqn:Hc.
      * destruct (request_openai (__init__ api_key api_url provider flag)
                    messages t p pp fp model stream Hp Hc) as [h Hr].
        rewrite Hr. split; [discriminate|].
        intros (_ & H). apply Hcompat in H. congruence.
      * rewrite request_unsupported by assumption.
        split; [|reflexivity]. intros _. split; [exact Hp|].
        now apply Hcompat.
Qed.

(** C9: a client made for ["anthropic"] with the OpenAI-compatible flag
    set sends the native request (the one sent without the flag: key in
    [x-api-key], no [Authorization], [max_tokens] in the payload), but reads
    streamed frames in the OpenAI-compatible branch: a native
    [content_block_delta] frame, which has no [choices], yields nothing,
    where the client without the flag yields its text. *)
Theorem anthropic_flag_mismatch
    (api_key api_url : str) (messages : list value) (model_arg : model_arg_t)
    (model : str) (stream : bool) (json_str : str) (data : value) (t : str) :
  json_loads json_str = inr data ->
  delta_frame data (VStr t) -> t <> [] ->
  field (lit "choices") data = None ->
  (exists h d,
     sent (stream_chat (__init__ api_key api_url (lit "anthropic") true)
                       messages model_arg model stream) = Some (h, d) /\
     sent (stream_chat (__init__ api_key api_url (lit "anthropic") false)
                       messages model_arg model stream) = Some (h, d) /\
     lookup (lit "x-api-key") h = Some api_key /\
     lookup (lit "Authorization") h = None /\
     lookup (lit "max_tokens") d = Some (VInt 8192)) /\
  stream_payload (__init__ api_key api_url (lit "anthropic") true) json_str = [] /\
  stream_payload (__init__ api_key api_url (lit "anthropic") false) json_str
    = [answer (VStr t)].
Proof.
  intros Hj Hf Ht Hch. destruct model_arg as [[[tm p] pp] fp].
  split; [|split].
  - rewrite !sent_request, !request_native by reflexivity.
    eexists. eexists. repeat split.
  - unfold ClaudeClient.stream_payload, stream_frame. rewrite Hj.
    cbn [bind is_openai_compatible __init__ orb].
    destruct Hf as (Hty & _). destruct data; try discriminate.
    cbn [field] in Hch. cbn [get bind ret]. rewrite Hch. reflexivity.
  - now apply (stream_payload_delta json_loads _ json_str data t).
Qed.

(** *** A flagged provider without streaming *)

Lemma body_frame_flagged (self : client) (response : value) :
  provider self <> lit "anthropic" ->
  contains (provider self) OPENAI_COMPATIBLE_PROVIDERS = false ->
  body_frame self response = inl (unsupported (provider self)).
Proof.
  intros Hp Hc. unfold body_frame. now rewrite Hc, (str_eqb_neq _ _ Hp).
Qed.

Lemma body_chunks_flagged (self : client) (bound : bool) (chunks : list bytes) :
  provider self <> lit "anthropic" ->
  contains (provider self) OPENAI_COMPATIBLE_PROVIDERS = false ->
  events (body_chunks self bound chunks) = [].
Proof.
  intros Hp Hc. revert bound.
  induction chunks as [|chunk chunks IH]; intros bound; [reflexivity|].
  cbn [ClaudeClient.body_chunks].
  assert (Hother : events (if bound then body_chunks self bound chunks
                           else {| events := []; final := Raised UnboundLocalError;
                                   unread := chunks |}) = []).
  { destruct bound; [apply IH|reflexivity]. }
  destruct (decode chunk) as [text|]; [|exact Hother].
  destruct (json_loads text) as [e|response].
  - destruct e; first [exact Hother|apply IH].
  - unfold yields. cbn [events].
    rewrite (body_frame_flagged self response Hp Hc). apply IH.
Qed.

(** A provider outside the list that is only flagged as OpenAI-compatible
    has its request sent in the OpenAI-compatible form, and then every
    non-streaming response body is dropped: the loop tests the list, not
    the flag. *)
Lemma flagged_provider_bodies_dropped
    (api_key api_url provider : str) (messages : list value)
    (model_arg : model_arg_t) (model : str) :
  provider <> lit "anthropic" -> provider <> lit "openrouter" ->
  provider <> lit "oneapi" ->
  sent (stream_chat (__init__ api_key api_url provider true)
                    messages model_arg model false) <> None /\
  events (reply (stream_chat (__init__ api_key api_url provider true)
                             messages model_arg model false)) = [].
Proof.
  intros Ha Ho H1.
  assert (Hc : contains provider OPENAI_COMPATIBLE_PROVIDERS = false).
  { pose proof (contains_providers provider) as Hc.
    destruct (contains provider OPENAI_COMPATIBLE_PROVIDERS); [|reflexivity].
    destruct (proj1 Hc eq_refl); contradiction. }
  destruct model_arg as [[[t p] pp] fp].
  destruct (request_openai (__init__ api_key api_url provider true)
              messages t p pp fp model false Ha eq_refl) as [h Hr].
  split.
  - rewrite sent_request, Hr. discriminate.
  - unfold ClaudeClient.stream_chat. rewrite Hr. cbn [reply].
    now apply body_chunks_flagged.
Qed.

End Request.

(** ** Runs on wire data *)

Section Runs.

Import Sample.

Local Open Scope string_scope.

(** The end-to-end scenario: two chunks, the second closing the stream. *)
Example end_to_end :
  reply (stream_chat Json.loads
           (transport
              [Json.wire ("data: " ++ frame "Hel" ++ "|");
               Json.wire ("data: " ++ frame "lo" ++ "||data: [DONE]|")])
           native messages model_arg model true)
  = {| events := [answer (VStr (lit "Hel")); answer (VStr (lit "lo"))];
       final := Finished;
       unread := [] |}.
Proof. vm_compute. reflexivity. Qed.

(** A chunk that is not UTF-8 reaches the caller as an exception when
    streaming, and also without streaming when no body was parsed before. *)
Example undecodable_chunk :
  final (reply (stream_chat Json.loads (transport [garbage])
                  native messages model_arg model true))
    = Raised UnicodeDecodeError /\
  final (reply (stream_chat Json.loads (transport [garbage])
                  native messages model_arg model false))
    = Raised UnboundLocalError.
Proof. split; vm_compute; reflexivity. Qed.



(** The same run evaluated: the two texts, a normal end, and the two later
    chunks unread. *)
Example done_line_run :
  stream_chunks Json.loads native
    [Json.wire ("data: " ++ frame "Hel" ++ "|");
     Json.wire ("data: " ++ frame "lo" ++ "||data: [DONE]|data: "
                ++ frame "never" ++ "|");
     Json.wire ("data: " ++ frame "late" ++ "|");
     garbage]
  = {| events := [answer (VStr (lit "Hel")); answer (VStr (lit "lo"))];
       final := Finished;
       unread := [Json.wire ("data: " ++ frame "late" ++ "|"); garbage] |}.
Proof. vm_compute. reflexivity. Qed.

Lemma temperature_clamped_witness :
  exists h d,
    sent (stream_chat Json.loads (transport []) oneapi messages
            (1.5, 1, 0, 0)%float model true) = Some (h, d) /\
    lookup (lit "temperature") d = Some (VInt 1).
Proof.
  eexists. eexists. split; [reflexivity|].
  apply (temperature_clamped Json.loads (transport []) oneapi messages
           1.5 1 0 0 model true _ _ eq_refl).
  right. reflexivity.
Defined.

Lemma native_frame_event_iff_witness :
  exists evs,
    stream_lines Json.loads native [data_line (Json.text (frame "Hel"))]
      = (evs, false) /\
    (forall content,
        evs = [answer content] <->
        field (lit "type") (parsed_frame "Hel")
          = Some (VStr (lit "content_block_delta")) /\
        (delta <- get (parsed_frame "Hel") (lit "delta") (VDict []) ;;
         get delta (lit "text") (VStr [])) = inr content /\
        truthy content = true) /\
    (evs = [] \/ exists content, evs = [answer content]) /\
    (field (lit "type") (parsed_frame "Hel")
       <> Some (VStr (lit "content_block_delta")) ->
     evs = []) /\
    (forall s,
        evs = [answer (VStr s)] <->
        field (lit "type") (parsed_frame "Hel")
          = Some (VStr (lit "content_block_delta")) /\
        (delta <- get (parsed_frame "Hel") (lit "delta") (VDict []) ;;
         get delta (lit "text") (VStr [])) = inr (VStr s) /\
        s <> []).
Proof.
  apply (native_frame_event_iff Json.loads native
           (Json.text (frame "Hel")) (parsed_frame "Hel")).
  - reflexivity.
  - reflexivity.
  - vm_compute. discriminate.
  - vm_compute. reflexivity.
Defined.

Lemma payload_keys_witness :
  (exists h d,
     sent (stream_chat Json.loads (transport []) native messages
             model_arg model true) = Some (h, d) /\
     map fst d = [lit "model"; lit "messages"; lit "max_tokens"; lit "stream";
                  lit "temperature"; lit "top_p"] /\
     lookup (lit "max_tokens") d = Some (VInt 8192) /\
     lookup (lit "presence_penalty") d = None /\
     lookup (lit "frequency_penalty") d = None) /\
  (exists h d,
     sent (stream_chat Json.loads (transport []) custom_flagged messages
             model_arg model true) = Some (h, d) /\
     map fst d = [lit "model"; lit "messages"; lit "stream"; lit "temperature";
                  lit "top_p"; lit "presence_penalty"; lit "frequency_penalty"]).
Proof.
  split.
  - apply (proj1 (payload_keys Json.loads (transport []) native messages
                    model_arg model true)).
    reflexivity.
  - apply (proj2 (payload_keys Json.loads (transport []) custom_flagged messages
                    model_arg model true)).
    + discriminate.
    + reflexivity.
Defined.

Lemma unsupported_provider_only_failure_witness :
  stream_chat Json.loads (transport [garbage])
    (__init__ (lit "sk-test") DEFAULT_API_URL (lit "custom") false)
    messages model_arg model true
  = {| sent := None;
       reply := {| events := [];
                   final := Raised (unsupported (lit "custom"));
                   unread := [] |} |}.
Proof.
  apply (proj1 (unsupported_provider_only_failure Json.loads (transport [garbage])
                  (lit "sk-test") DEFAULT_API_URL (lit "custom") false
                  messages model_arg model true)).
  - discriminate.
  - discriminate.
  - discriminate.
  - reflexivity.
Defined.

Lemma anthropic_flag_mismatch_witness :
  (exists h d,
     sent (stream_chat Json.loads (transport []) native_flagged messages
             model_arg model true) = Some (h, d) /\
     sent (stream_chat Json.loads (transport []) native messages
             model_arg model true) = Some (h, d) /\
     lookup (lit "x-api-key") h = Some (lit "sk-test") /\
     lookup (lit "Authorization") h = None /\
     lookup (lit "max_tokens") d = Some (VInt 8192)) /\
  stream_payload Json.loads native_flagged (Json.text (frame "Hel")) = [] /\
  stream_payload Json.loads native (Json.text (frame "Hel"))
    = [answer (VStr (lit "Hel"))].
Proof.
  apply (anthropic_flag_mismatch Json.loads (transport [])
           (lit "sk-test") DEFAULT_API_URL messages model_arg model true
           (Json.text (frame "Hel")) (parsed_frame "Hel") (lit "Hel")).
  - vm_compute. reflexivity.
  - split; [reflexivity|]. eexists. split; reflexivity.
  - discriminate.
  - reflexivity.
Defined.

(** The flagged client on a whole streamed response of native frames:
    nothing is yielded. *)
Example anthropic_flag_mismatch_run :
  reply (stream_chat Json.loads
           (transport
              [Json.wire ("data: " ++ frame "Hel" ++ "|");
               Json.wire ("data: " ++ frame "lo" ++ "||data: [DONE]|")])
           native_flagged messages model_arg model true)
  = {| events := []; final := Finished; unread := [] |}.
Proof. vm_compute. reflexivity. Qed.

(** C3: the client for a provider that is OpenAI-compatible by the flag
    only, without streaming, on the body
    [{"choices":[{"message":{"content":"hi"}}]}]: the request is sent
    with the bearer token, and the body yields no event; the same body
    yields [("answer", "hi")] for ["oneapi"], and the flagged client does
    yield the text of the streamed form of the response. *)
Lemma flagged_provider_body_dropped :
  let body := Json.wire "{'choices':[{'message':{'content':'hi'}}]}" in
  let line := Json.wire "data: {'choices':[{'delta':{'content':'hi'}}]}|" in
  let dropped := stream_chat Json.loads (transport [body]) custom_flagged
                   messages model_arg model false in
  (exists h d, sent dropped = Some (h, d) /\
               lookup (lit "Authorization") h = Some (lit "Bearer sk-test")) /\
  reply dropped = {| events := []; final := Finished; unread := [] |} /\
  reply (stream_chat Json.loads (transport [body]) oneapi
           messages model_arg model false)
    = {| events := [answer (VStr (lit "hi"))]; final := Finished; unread := [] |} /\
  reply (stream_chat Json.loads (transport [line]) custom_flagged
           messages model_arg model true)
    = {| events := [answer (VStr (lit "hi"))]; final := Finished; unread := [] |}.
Proof.
  cbv zeta. split; [|split; [|split]].
  - eexists. eexists. split; vm_compute; reflexivity.
  - vm_compute. reflexivity.
  - vm_compute. reflexivity.
  - vm_compute. reflexivity.
Qed.

End Runs.

(** ** The other branches of the response loops *)

Section Branches.

Variable json_loads : str -> result value.

Abbreviation stream_payload := (ClaudeClient.stream_payload json_loads).
Abbreviation stream_lines := (ClaudeClient.stream_lines json_loads).
Abbreviation body_chunks := (ClaudeClient.body_chunks json_loads).

Lemma bind_assoc {A B C : Type}
    (m : result A) (f : A -> result B) (g : B -> result C) :
  bind (bind m f) g = bind m (fun a => bind (f a) g).
Proof. now destruct m. Qed.

Lemma logged_emit (m : result value) :
  logged (content <- m ;;
          if truthy content then ret [answer content] else ret [])
  = emitted m.
Proof.
  destruct m as [e|content]; [reflexivity|].
  cbn [bind emitted]. now destruct (truthy content).
Qed.

(** Indexing fails on every falsy value: the guards [if choices:] and
    [if content_list:] cut off nothing that [[0]] would have accepted. *)
Lemma item0_falsy (v : value) :
  truthy v = false -> exists e, item0 v = inl e.
Proof.
  destruct v as [|b|z|f|s|l|d]; cbn [truthy item0]; intros H;
    try (eexists; reflexivity).
  - destruct s; [eexists; reflexivity|discriminate].
  - destruct l; [eexists; reflexivity|discriminate].
Qed.

(** A guarded chain is the unguarded one, an exception standing for the
    skipped case. *)
Lemma logged_guarded (m : result value) (k : value -> result value) :
  logged (v <- m ;;
          if truthy v
          then first <- item0 v ;; content <- k first ;;
               if truthy content then ret [answer content] else ret []
          else ret [])
  = emitted (v <- m ;; first <- item0 v ;; k first).
Proof.
  destruct m as [e|v]; [reflexivity|]. cbn [bind].
  destruct (truthy v) eqn:Hv.
  - rewrite <- logged_emit. now rewrite bind_assoc.
  - destruct (item0_falsy v Hv) as [e He]. now rewrite He.
Qed.

Lemma stream_frame_openai (self : client) (data : value) :
  is_openai_compatible self = true ->
  logged (stream_frame self data) = emitted (openai_delta_content data).
Proof.
  intros Hc. unfold stream_frame, openai_delta_content. rewrite Hc.
  rewrite <- (logged_guarded _ (fun first =>
    delta <- get first (lit "delta") (VDict []) ;;
    get delta (lit "content") (VStr []))).
  f_equal.
  destruct (get data (lit "choices") (VList [])) as [e|choices]; [reflexivity|].
  cbn [bind]. destruct (truthy choices); [|reflexivity].
  destruct (item0 choices) as [e|first]; [reflexivity|]. cbn [bind].
  now rewrite bind_assoc.
Qed.

Lemma body_frame_listed (self : client) (response : value) :
  contains (provider self) OPENAI_COMPATIBLE_PROVIDERS = true ->
  logged (body_frame self response) = emitted (openai_message_content response).
Proof.
  intros Hc. unfold body_frame, openai_message_content. rewrite Hc.
  rewrite <- (logged_guarded _ (fun first =>
    message <- get first (lit "message") (VDict []) ;;
    get message (lit "content") (VStr []))).
  f_equal.
  destruct (get response (lit "choices") (VList [])) as [e|choices]; [reflexivity|].
  cbn [bind]. destruct (truthy choices); [|reflexivity].
  destruct (item0 choices) as [e|first]; [reflexivity|]. cbn [bind].
  now rewrite bind_assoc.
Qed.

Lemma body_frame_native (self : client) (response : value) :
  provider self = lit "anthropic" ->
  logged (body_frame self response) = emitted (native_content_text response).
Proof.
  intros Hp. unfold body_frame, native_content_text. rewrite Hp.
  change (contains (lit "anthropic") OPENAI_COMPATIBLE_PROVIDERS) with false.
  rewrite str_eqb_refl.
  now rewrite <- (logged_guarded _ (fun first =>
    get first (lit "text") (VStr []))).
Qed.

(** What [emitted] says about the events of one frame. *)
Lemma emitted_spec (r : result value) :
  (forall content,
      emitted r = [answer content] <-> r = inr content /\ truthy content = true) /\
  (emitted r = [] \/ exists content, emitted r = [answer content]) /\
  (forall s, emitted r = [answer (VStr s)] <-> r = inr (VStr s) /\ s <> []).
Proof.
  assert (H : forall content,
             emitted r = [answer content] <-> r = inr content /\ truthy content = true).
  { intros content. destruct r as [e|c]; cbn [emitted].
    - split; [discriminate|]. intros [E _]. discriminate.
    - destruct (truthy c) eqn:Hc; split.
      + unfold answer. intros E. injection E as ->. now split.
      + intros [E _]. now injection E as ->.
      + discriminate.
      + intros [E T]. injection E as ->. congruence. }
  split; [exact H|]. split.
  - destruct r as [e|c]; cbn [emitted]; [now left|].
    destruct (truthy c); [right; now exists c|now left].
  - intros s. rewrite H. split; intros [E T]; (split; [exact E|]).
    + intros ->. discriminate.
    + destruct s; [contradiction|reflexivity].
Qed.

(** X1: for an OpenAI-compatible client a parsed data line yields
    [("answer", content)] exactly when [choices[0].get('delta',
    {}).get('content', '')] goes through and gives a truthy [content] (for a
    string: a non-empty one); it yields at most that event, and nothing for
    an object without [choices], such as a native frame or a keep-alive. *)
Theorem openai_frame_event_iff
    (self : client) (json_str : str) (data : value) :
  is_openai_compatible self = true ->
  strip json_str <> lit "[DONE]" ->
  json_loads json_str = inr data ->
  exists evs,
    stream_lines self [data_line json_str] = (evs, false) /\
    (forall content,
        evs = [answer content] <->
        openai_delta_content data = inr content /\ truthy content = true) /\
    (evs = [] \/ exists content, evs = [answer content]) /\
    (forall s,
        evs = [answer (VStr s)] <->
        openai_delta_content data = inr (VStr s) /\ s <> []) /\
    (field (lit "choices") data = None -> evs = []).
Proof.
  intros Hc Hd Hj. exists (emitted (openai_delta_content data)).
  destruct (emitted_spec (openai_delta_content data)) as (H1 & H2 & H3).
  split; [|split; [exact H1|split; [exact H2|split; [exact H3|]]]].
  - rewrite (stream_lines_data json_loads self json_str []) by exact Hd.
    unfold ClaudeClient.stream_payload. rewrite Hj. cbn [bind].
    rewrite (stream_frame_openai self data Hc). cbn [ClaudeClient.stream_lines fst snd].
    now rewrite app_nil_r.
  - intros Hf. unfold openai_delta_content.
    destruct data; try reflexivity. cbn [field] in Hf. cbn [get]. now rewrite Hf.
Qed.

(** X2: without streaming, for provider ["anthropic"] a chunk that parses
    yields [("answer", content)] exactly when [content_list[0].get('text',
    '')] goes through and gives a truthy [content]; it yields at most
    that event, nothing for a body without [content], and the loop goes on
    with the next chunk. *)
Theorem native_body_event_iff
    (self : client) (bound : bool) (chunk : bytes) (rest : list bytes)
    (text : str) (response : value) :
  provider self = lit "anthropic" ->
  decode chunk = Some text -> json_loads text = inr response ->
  exists evs,
    body_chunks self bound (chunk :: rest)
      = yields evs (body_chunks self true rest) /\
    (forall content,
        evs = [answer content] <->
        native_content_text response = inr content /\ truthy content = true) /\
    (evs = [] \/ exists content, evs = [answer content]) /\
    (forall s,
        evs = [answer (VStr s)] <->
        native_content_text response = inr (VStr s) /\ s <> []) /\
    (field (lit "content") response = None -> evs = []).
Proof.
  intros Hp Hd Hj. exists (emitted (native_content_text response)).
  destruct (emitted_spec (native_content_text response)) as (H1 & H2 & H3).
  split; [|split; [exact H1|split; [exact H2|split; [exact H3|]]]].
  - cbn [ClaudeClient.body_chunks]. rewrite Hd, Hj.
    now rewrite (body_frame_native self response Hp).
  - intros Hf. unfold native_content_text.
    destruct response; try reflexivity. cbn [field] in Hf. cbn [get].
    now rewrite Hf.
Qed.

(** X3: without streaming, for providers ["openrouter"] and ["oneapi"] a
    chunk that parses yields [("answer", content)] exactly when
    [choices[0].get('message', {}).get('content', '')] goes through and
    gives a truthy [content]; it yields at most that event, nothing for a
    body without [choices], and the loop goes on with the next chunk. *)
Theorem listed_provider_body_event_iff
    (self : client) (bound : bool) (chunk : bytes) (rest : list bytes)
    (text : str) (response : value) :
  provider self = lit "openrouter" \/ provider self = lit "oneapi" ->
  decode chunk = Some text -> json_loads text = inr response ->
  exists evs,
    body_chunks self bound (chunk :: rest)
      = yields evs (body_chunks self true rest) /\
    (forall content,
        evs = [answer content] <->
        openai_message_content response = inr content /\ truthy content = true) /\
    (evs = [] \/ exists content, evs = [answer content]) /\
    (forall s,
        evs = [answer (VStr s)] <->
        openai_message_content response = inr (VStr s) /\ s <> []) /\
    (field (lit "choices") response = None -> evs = []).
Proof.
  intros Hp Hd Hj. exists (emitted (openai_message_content response)).
  destruct (emitted_spec (openai_message_content response)) as (H1 & H2 & H3).
  assert (Hc : contains (provider self) OPENAI_COMPATIBLE_PROVIDERS = true).
  { destruct Hp as [-> | ->]; reflexivity. }
  split; [|split; [exact H1|split; [exact H2|split; [exact H3|]]]].
  - cbn [ClaudeClient.body_chunks]. rewrite Hd, Hj.
    now rewrite (body_frame_listed self response Hc).
  - intros Hf. unfold openai_message_content.
    destruct response; try reflexivity. cbn [field] in Hf. cbn [get].
    now rewrite Hf.
Qed.

End Branches.

(** ** How the loops run *)

Section Loops.

Variable json_loads : str -> result value.

Abbreviation stream_payload := (ClaudeClient.stream_payload json_loads).
Abbreviation stream_lines := (ClaudeClient.stream_lines json_loads).
Abbreviation stream_chunks := (ClaudeClient.stream_chunks json_loads).
Abbreviation body_chunks := (ClaudeClient.body_chunks json_loads).

(** X4: without streaming, a chunk whose text [json.loads] rejects with
    [JSONDecodeError] is skipped: with or without it, wherever it stands,
    the run yields the same events and ends the same way. *)
Theorem body_malformed_chunk_skipped
    (self : client) (bound : bool) (pre post : list bytes) (bad : bytes)
    (text : str) :
  decode bad = Some text -> json_loads text = inl JSONDecodeError ->
  events (body_chunks self bound (pre ++ bad :: post))
    = events (body_chunks self bound (pre ++ post)) /\
  final (body_chunks self bound (pre ++ bad :: post))
    = final (body_chunks self bound (pre ++ post)).
Proof.
  intros Hd Hj. revert bound.
  induction pre as [|a pre IH]; intros bound.
  - cbn [app ClaudeClient.body_chunks]. rewrite Hd, Hj. now split.
  - rewrite <- !app_comm_cons. cbn [ClaudeClient.body_chunks].
    destruct (decode a) as [t|].
    + destruct (json_loads t) as [e|response].
      * destruct e; destruct bound; first [apply IH|now split].
      * unfold yields. cbn [events final].
        destruct (IH true) as [-> ->]. now split.
    + destruct bound; [apply IH|now split].
Qed.

(** Chunks that decode and hold no termination line are read to the end,
    and the loop goes on with what follows. *)
Lemma stream_chunks_app
    (self : client) (A B : list bytes) (texts : list str) :
  decoded A texts ->
  snd (stream_lines self (flat_map (split LF) texts)) = false ->
  stream_chunks self (A ++ B)
    = yields (events (stream_chunks self A)) (stream_chunks self B).
Proof.
  induction 1 as [|chunk text A texts Hd _ IH]; intros Hs.
  - cbn [app ClaudeClient.stream_chunks events]. unfold yields.
    now destruct (stream_chunks self B).
  - cbn [flat_map] in Hs. rewrite stream_lines_app in Hs. cbn [snd] in Hs.
    apply orb_false_iff in Hs. destruct Hs as [Hs1 Hs2].
    rewrite <- app_comm_cons, !stream_chunks_cons, Hd.
    destruct (strip text); [now apply IH|].
    destruct (stream_lines self (split LF text)) as [evs returned].
    cbn [snd] in Hs1. subst returned.
    rewrite (IH Hs2). unfold yields. cbn [events final unread].
    now rewrite app_assoc.
Qed.

(** X5: when the chunks so far decode and hold no termination line, a
    chunk that is not UTF-8 ends the streamed run with
    [UnicodeDecodeError]: the events of the chunks before it have been
    yielded, and nothing after it is read. *)
Theorem undecodable_chunk_aborts
    (self : client) (pre post : list bytes) (bad : bytes) (texts : list str) :
  decoded pre texts ->
  snd (stream_lines self (flat_map (split LF) texts)) = false ->
  decode bad = None ->
  stream_chunks self (pre ++ bad :: post) =
  {| events := events (stream_chunks self pre);
     final := Raised UnicodeDecodeError;
     unread := post |}.
Proof.
  intros Hpre Hs Hd. rewrite (stream_chunks_app self pre _ texts Hpre Hs).
  rewrite stream_chunks_cons, Hd. unfold yields. cbn [events final unread].
  now rewrite app_nil_r.
Qed.

(** X6: what has been yielded is never taken back: the events of a run
    on the first chunks of a response open the events of the run on the
    whole response, in both loops. *)
Theorem events_grow_with_chunks
    (self : client) (bound : bool) (A B : list bytes) :
  (exists more,
      events (stream_chunks self (A ++ B))
        = events (stream_chunks self A) ++ more) /\
  (exists more,
      events (body_chunks self bound (A ++ B))
        = events (body_chunks self bound A) ++ more).
Proof.
  split.
  - induction A as [|a A [more IH]].
    + now exists (events (stream_chunks self B)).
    + rewrite <- app_comm_cons, !stream_chunks_cons.
      destruct (decode a) as [text|]; [|now exists []].
      destruct (strip text); [now exists more|].
      destruct (stream_lines self (split LF text)) as [evs [|]].
      * exists []. cbn [events]. now rewrite app_nil_r.
      * exists more. unfold yields. cbn [events]. now rewrite IH, app_assoc.
  - revert bound. induction A as [|a A IH]; intros bound.
    + now exists (events (body_chunks self bound B)).
    + rewrite <- app_comm_cons. cbn [ClaudeClient.body_chunks].
      assert (Hother :
        exists more,
          events (if bound then body_chunks self bound (A ++ B)
                  else {| events := []; final := Raised UnboundLocalError;
                          unread := A ++ B |})
          = events (if bound then body_chunks self bound A
                    else {| events := []; final := Raised UnboundLocalError;
                            unread := A |}) ++ more).
      { destruct bound; [apply IH|now exists []]. }
      destruct (decode a) as [text|]; [|exact Hother].
      destruct (json_loads text) as [e|response].
      * destruct e; first [exact Hother|apply IH].
      * destruct (IH true) as [more Hm]. exists more.
        unfold yields. cbn [events]. now rewrite Hm, app_assoc.
Qed.

(** X7: a whitespace-only chunk is not observable in a streamed run:
    with or without it, wherever it stands, the run yields the same events
    and ends the same way. *)
Theorem blank_chunk_skipped
    (self : client) (A B : list bytes) (blank : bytes) (text : str) :
  decode blank = Some text -> strip text = [] ->
  events (stream_chunks self (A ++ blank :: B))
    = events (stream_chunks self (A ++ B)) /\
  final (stream_chunks self (A ++ blank :: B))
    = final (stream_chunks self (A ++ B)).
Proof.
  intros Hd Hs. induction A as [|a A [IHe IHf]].
  - cbn [app]. rewrite stream_chunks_cons, Hd, Hs. now split.
  - rewrite <- !app_comm_cons, !stream_chunks_cons.
    destruct (decode a) as [t|]; [|now split].
    destruct (strip t); [now split|].
    destruct (stream_lines self (split LF t)) as [evs [|]]; [now split|].
    unfold yields. cbn [events final]. now rewrite IHe, IHf.
Qed.

(** X8: how a streamed response is cut into chunks does not matter as
    long as the chunks hold the same lines: two sequences of chunks that
    decode to the same lines yield the same events and both end normally. *)
Theorem same_lines_same_events
    (self : client) (chunks chunks' : list bytes) (texts texts' : list str) :
  decoded chunks texts -> decoded chunks' texts' ->
  flat_map (split LF) texts = flat_map (split LF) texts' ->
  events (stream_chunks self chunks) = events (stream_chunks self chunks') /\
  final (stream_chunks self chunks) = Finished /\
  final (stream_chunks self chunks') = Finished.
Proof.
  intros Hd Hd' Hl.
  destruct (stream_chunks_lines json_loads self chunks texts Hd) as (He & Hf & _).
  destruct (stream_chunks_lines json_loads self chunks' texts' Hd') as (He' & Hf' & _).
  rewrite He, He', Hl. now repeat split.
Qed.

Lemma data_line_not_blank (payload : str) : strip (data_line payload) <> [].
Proof.
  apply (strip_not_nil _ 100); [|reflexivity].
  unfold data_line. apply in_or_app. left. left. reflexivity.
Qed.

Lemma data_line_single (payload : str) :
  ~ In LF payload -> split LF (data_line payload) = [data_line payload].
Proof.
  intros Hn. apply split_no_sep. unfold data_line. intros H.
  apply in_app_or in H. destruct H as [H|H]; [|contradiction].
  cbn in H. repeat (destruct H as [H|H]; [discriminate H|]). exact H.
Qed.

(** One chunk that is a single data line. *)
Lemma data_line_chunk (self : client) (c : bytes) (payload : str) :
  decode c = Some (data_line payload) -> ~ In LF payload ->
  strip payload <> lit "[DONE]" ->
  stream_chunks self [c] =
  {| events := stream_payload self payload; final := Finished; unread := [] |}.
Proof.
  intros Hd Hn Hs. rewrite (head_chunk json_loads self c _ Hd).
  rewrite (data_line_single payload Hn).
  rewrite (stream_lines_data json_loads self payload [] Hs).
  cbn [ClaudeClient.stream_lines fst]. now rewrite app_nil_r.
Qed.

(** X9: the streaming loop does not put a frame back together: a native
    frame that arrives whole in one chunk yields its text, and the same
    frame cut in two chunks, the first part failing to parse and the
    second no data line, yields nothing; the run ends normally both ways. *)
Theorem fragmented_frame_dropped
    (self : client) (c c1 c2 : bytes) (p1 p2 : str) (data : value) (t : str)
    (e : exn) :
  provider self = lit "anthropic" -> is_openai_compatible self = false ->
  decode c = Some (data_line (p1 ++ p2)) ->
  decode c1 = Some (data_line p1) -> decode c2 = Some p2 ->
  ~ In LF p1 -> ~ In LF p2 -> no_data p2 ->
  json_loads (p1 ++ p2) = inr data -> delta_frame data (VStr t) -> t <> [] ->
  strip (p1 ++ p2) <> lit "[DONE]" ->
  json_loads p1 = inl e -> strip p1 <> lit "[DONE]" ->
  stream_chunks self [c] =
    {| events := [answer (VStr t)]; final := Finished; unread := [] |} /\
  stream_chunks self [c1; c2] =
    {| events := []; final := Finished; unread := [] |}.
Proof.
  intros Hp Hc Hd Hd1 Hd2 Hn1 Hn2 Hno Hj Hf Ht Hs He Hs1. split.
  - rewrite (data_line_chunk self c (p1 ++ p2) Hd); [|
      intros H; apply in_app_or in H; tauto | exact Hs].
    now rewrite (stream_payload_delta json_loads self (p1 ++ p2) data t).
  - change [c1; c2] with ([c1] ++ [c2]).
    rewrite (stream_chunks_app self [c1] [c2] [data_line p1]).
    + rewrite (data_line_chunk self c1 p1 Hd1 Hn1 Hs1).
      rewrite (stream_payload_malformed json_loads self p1 e He).
      rewrite (head_chunk json_loads self c2 p2 Hd2).
      rewrite (split_no_sep LF p2 Hn2).
      rewrite (stream_lines_no_data json_loads self [p2]); [reflexivity|].
      now constructor.
    + constructor; [exact Hd1|constructor].
    + cbn [flat_map]. rewrite app_nil_r, (data_line_single p1 Hn1).
      now rewrite (stream_lines_data json_loads self p1 [] Hs1).
Qed.

(** The line loop returns exactly when it meets a termination line. *)
Lemma returns_iff_termination_line (self : client) (L : list str) :
  snd (stream_lines self L) = true <-> Exists termination_line L.
Proof.
  induction L as [|line L IH].
  - split; [discriminate|]. intros H. inversion H.
  - rewrite stream_lines_cons, Exists_cons. unfold termination_line at 1.
    destruct (startswith (lit "data: ") line).
    + destruct (str_eqb (strip (slice_from 6 line)) (lit "[DONE]")) eqn:E.
      * apply str_eqb_eq in E. cbn [snd]. split; [|reflexivity].
        intros _. left. now split.
      * destruct (stream_lines self L) as [evs returned]. cbn [snd] in *.
        rewrite IH. split; [now right|]. intros [[_ H]|H]; [|exact H].
        apply str_eqb_eq in H. congruence.
    + rewrite IH. split; [now right|]. intros [[H _]|H]; [discriminate|exact H].
Qed.

(** X10: a streamed run stops reading only at a termination line: when the
    chunks decode and none of their lines is a data line whose payload
    strips to [[DONE]], every chunk is read and the run ends normally. *)
Theorem reads_all_without_termination_line
    (self : client) (chunks : list bytes) (texts : list str) :
  decoded chunks texts ->
  ~ Exists termination_line (flat_map (split LF) texts) ->
  final (stream_chunks self chunks) = Finished /\
  unread (stream_chunks self chunks) = [].
Proof.
  intros Hd Hn.
  destruct (stream_chunks_lines json_loads self chunks texts Hd) as (_ & Hf & Hu).
  split; [exact Hf|]. apply Hu.
  destruct (snd (stream_lines self (flat_map (split LF) texts))) eqn:E;
    [|reflexivity].
  exfalso. apply Hn. exact (proj1 (returns_iff_termination_line self _) E).
Qed.

Lemma emitted_le1 (r : result value) : (List.length (emitted r) <= 1)%nat.
Proof.
  destruct r as [e|c]; cbn [emitted]; [cbn; lia|].
  destruct (truthy c); cbn; lia.
Qed.

Lemma stream_frame_le1 (self : client) (data : value) :
  (List.length (logged (stream_frame self data)) <= 1)%nat.
Proof.
  destruct (is_openai_compatible self) eqn:Hc.
  - rewrite (stream_frame_openai self data Hc). apply emitted_le1.
  - unfold stream_frame. rewrite Hc.
    destruct (str_eqb (provider self) (lit "anthropic")); [|cbn; lia].
    destruct (get data (lit "type") VNone) as [e|type]; [cbn; lia|].
    cbn [bind]. destruct (eq_str type (lit "content_block_delta")); [|cbn; lia].
    rewrite <- bind_assoc, logged_emit. apply emitted_le1.
Qed.

Lemma body_frame_le1 (self : client) (response : value) :
  (List.length (logged (body_frame self response)) <= 1)%nat.
Proof.
  destruct (contains (provider self) OPENAI_COMPATIBLE_PROVIDERS) eqn:Hc.
  - rewrite (body_frame_listed self response Hc). apply emitted_le1.
  - destruct (str_eqb (provider self) (lit "anthropic")) eqn:Hp.
    + apply str_eqb_eq in Hp.
      rewrite (body_frame_native self response Hp). apply emitted_le1.
    + unfold body_frame. rewrite Hc, Hp. cbn. lia.
Qed.

(** X11: a frame yields at most one event: a streamed run yields no more
    events than its lines have data lines, and a non-streamed run no more
    than it has chunks. *)
Theorem events_bounded
    (self : client) (L : list str) (bound : bool) (chunks : list bytes) :
  (List.length (fst (stream_lines self L))
   <= List.length (filter is_data_line L))%nat /\
  (List.length (events (body_chunks self bound chunks))
   <= List.length chunks)%nat.
Proof.
  split.
  - induction L as [|line L IH]; [cbn; lia|].
    rewrite stream_lines_cons. cbn [filter]. unfold is_data_line at 1.
    destruct (startswith (lit "data: ") line); [|exact IH].
    destruct (str_eqb (strip (slice_from 6 line)) (lit "[DONE]")); [cbn; lia|].
    destruct (stream_lines self L) as [evs returned]. cbn [fst] in *.
    rewrite length_app. cbn [List.length].
    assert (H : (List.length (stream_payload self (slice_from 6 line)) <= 1)%nat).
    { unfold ClaudeClient.stream_payload.
      destruct (json_loads (slice_from 6 line)) as [e|data]; [cbn; lia|].
      apply stream_frame_le1. }
    lia.
  - revert bound. induction chunks as [|chunk chunks IH]; intros bound;
      [cbn; lia|].
    cbn [ClaudeClient.body_chunks List.length].
    assert (Hother :
      (List.length
         (events (if bound then body_chunks self bound chunks
                  else {| events := []; final := Raised UnboundLocalError;
                          unread := chunks |}))
       <= S (List.length chunks))%nat).
    { destruct bound; [specialize (IH true); lia|cbn; lia]. }
    destruct (decode chunk) as [text|]; [|exact Hother].
    destruct (json_loads text) as [e|response].
    + destruct e; first [exact Hother|specialize (IH bound); lia].
    + unfold yields. cbn [events]. rewrite length_app.
      pose proof (body_frame_le1 self response). specialize (IH true). lia.
Qed.

End Loops.

(** ** Whole calls *)

Section Calls.

Variable json_loads : str -> result value.
Variable _make_request : headers -> dict -> list bytes.

Abbreviation stream_chunks := (ClaudeClient.stream_chunks json_loads).
Abbreviation body_chunks := (ClaudeClient.body_chunks json_loads).
Abbreviation stream_chat := (ClaudeClient.stream_chat json_loads _make_request).





Lemma get_raises (obj : value) (key : str) (default : value) (e : exn) :
  get obj key default = inl e -> e = AttributeError.
Proof. destruct obj; cbn [get ret raise]; intros H; now inversion H. Qed.

Lemma item0_raises (v : value) (e : exn) :
  truthy v = true -> item0 v = inl e -> shape_error e.
Proof.
  unfold shape_error.
  destruct v as [|b|z|f|s|l|d]; cbn [truthy item0 ret raise]; intros Ht H;
    try (inversion H; tauto); try discriminate.
  - destruct s; [discriminate|inversion H].
  - destruct l; [discriminate|inversion H].
Qed.

Ltac chain :=
  repeat match goal with
         | |- bind ?m _ = inl _ -> _ =>
             let E := fresh "E" in destruct m eqn:E; cbn [bind]
         | |- (if ?b then _ else _) = inl _ -> _ =>
             let E := fresh "E" in destruct b eqn:E
         | |- ret _ = inl _ -> _ => discriminate
         | |- inl _ = inl _ -> _ =>
             let H := fresh "H" in intros H; injection H as <-
         end;
  try match goal with
      | E : get _ _ _ = inl ?e |- _ =>
          left; exact (get_raises _ _ _ _ E)
      | T : truthy ?v = true, E : item0 ?v = inl ?e |- _ =>
          exact (item0_raises _ _ T E)
      end.

(** X13: working on a parsed frame raises nothing but a shape error
    ([AttributeError], [KeyError], [TypeError]): indexing is guarded, so
    never [IndexError]; and once a request has been sent the streaming loop
    never reaches its own [ValueError] for an unsupported provider, which
    the non-streaming loop can still raise. *)
Theorem frame_exceptions
    (self : client) (messages : list value) (model_arg : model_arg_t)
    (model : str) (stream : bool) (request : headers * dict)
    (data : value) (e : exn) :
  (stream_chat_request self messages model_arg model stream = inr request ->
   stream_frame self data = inl e -> shape_error e) /\
  (body_frame self data = inl e ->
   shape_error e \/
   e = unsupported (provider self) /\ provider self <> lit "anthropic" /\
   contains (provider self) OPENAI_COMPATIBLE_PROVIDERS = false).
Proof.
  split.
  - intros Hr. unfold stream_frame.
    destruct (is_openai_compatible self) eqn:Hc; [chain|].
    destruct (str_eqb (provider self) (lit "anthropic")) eqn:Hp; [chain|].
    rewrite request_unsupported in Hr; [discriminate| |exact Hc].
    intros E. rewrite E in Hp. discriminate.
  - unfold body_frame.
    destruct (contains (provider self) OPENAI_COMPATIBLE_PROVIDERS) eqn:Hc;
      [intros H; left; revert H; chain|].
    destruct (str_eqb (provider self) (lit "anthropic")) eqn:Hp;
      [intros H; left; revert H; chain|].
    unfold raise. intros H. injection H as <-. right. repeat split.
    intros E. rewrite E in Hp. discriminate.
Qed.

Lemma request_openai_headers (self : client) (messages : list value)
    (model_arg : model_arg_t) (model : str) (stream : bool) :
  provider self <> lit "anthropic" -> is_openai_compatible self = true ->
  exists d,
    stream_chat_request self messages model_arg model stream =
    inr ([ (lit "Authorization", lit "Bearer " ++ api_key self);
           (lit "Content-Type", lit "application/json") ]
         ++ (if str_eqb (provider self) (lit "openrouter")
             then [ (lit "HTTP-Referer",
                     lit "https://github.com/ErlichLiu/DeepClaude");
                    (lit "X-Title", lit "DeepClaude") ]
             else []),
         d).
Proof.
  intros Hp Hc. unfold stream_chat_request.
  destruct model_arg as [[[t p] pp] fp].
  rewrite (str_eqb_neq _ _ Hp), Hc.
  destruct (str_eqb (provider self) (lit "openrouter")); eexists; reflexivity.
Qed.

(** X14: the headers of a request that is sent.  For ["anthropic"] the
    key travels in [x-api-key] with the pinned version, and [accept] is
    [text/event-stream] when streaming and [application/json] otherwise;
    for any other provider the key travels as a bearer token and there is
    no [x-api-key] and no [accept].  [HTTP-Referer] and [X-Title] are sent
    for ["openrouter"] and for no other provider. *)
Theorem request_headers
    (self : client) (messages : list value) (model_arg : model_arg_t)
    (model : str) (stream : bool) (h : headers) (d : dict) :
  sent (stream_chat self messages model_arg model stream) = Some (h, d) ->
  (provider self = lit "anthropic" ->
   lookup (lit "x-api-key") h = Some (api_key self) /\
   lookup (lit "anthropic-version") h = Some (lit "2023-06-01") /\
   lookup (lit "accept") h
     = Some (if stream then lit "text/event-stream" else lit "application/json") /\
   lookup (lit "Authorization") h = None) /\
  (provider self <> lit "anthropic" ->
   lookup (lit "Authorization") h = Some (lit "Bearer " ++ api_key self) /\
   lookup (lit "x-api-key") h = None /\
   lookup (lit "accept") h = None) /\
  (lookup (lit "HTTP-Referer") h <> None <-> provider self = lit "openrouter") /\
  (lookup (lit "X-Title") h <> None <-> provider self = lit "openrouter").
Proof.
  rewrite sent_request. intros Hs.
  destruct (list_eq_dec N.eq_dec (provider self) (lit "anthropic")) as [Hp|Hp].
  - destruct model_arg as [[[t p] pp] fp].
    rewrite (request_native self messages t p pp fp model stream Hp) in Hs.
    injection Hs as <- <-.
    split; [intros _; now repeat split|]. split; [intros H; contradiction|].
    rewrite Hp. split; (split; [intros H; now contradiction H|discriminate]).
  - destruct (is_openai_compatible self) eqn:Hc.
    + destruct (request_openai_headers self messages model_arg model stream Hp Hc)
        as [d' Hr].
      rewrite Hr in Hs. injection Hs as <- <-.
      split; [intros H; contradiction|].
      destruct (str_eqb (provider self) (lit "openrouter")) eqn:Ho.
      * apply str_eqb_eq in Ho.
        split; [intros _; now repeat split|].
        split; (split; [intros _; exact Ho|intros _; discriminate]).
      * assert (Hne : provider self <> lit "openrouter").
        { intros E. rewrite E in Ho. discriminate. }
        split; [intros _; now repeat split|].
        split; (split; [intros H; now contradiction H|intros E; contradiction]).
    + rewrite (request_unsupported self messages _ model stream Hp Hc) in Hs.
      discriminate.
Qed.

(** X15: what the payload of a request that is sent passes on unchanged:
    the messages, the stream flag and [top_p] always; the caller's model
    unless the provider is ["openrouter"]; the two penalties unless the
    provider is ["anthropic"].  Only the temperature is clamped. *)
Theorem payload_passthrough
    (self : client) (messages : list value) (t p pp fp : float)
    (model : str) (stream : bool) (h : headers) (d : dict) :
  sent (stream_chat self messages (t, p, pp, fp) model stream) = Some (h, d) ->
  lookup (lit "messages") d = Some (VList messages) /\
  lookup (lit "stream") d = Some (VBool stream) /\
  lookup (lit "top_p") d = Some (VFloat p) /\
  (provider self <> lit "openrouter" ->
   lookup (lit "model") d = Some (VStr model)) /\
  (provider self <> lit "anthropic" ->
   lookup (lit "presence_penalty") d = Some (VFloat pp) /\
   lookup (lit "frequency_penalty") d = Some (VFloat fp)).
Proof.
  rewrite sent_request. intros Hs.
  destruct (list_eq_dec N.eq_dec (provider self) (lit "anthropic")) as [Hp|Hp].
  - rewrite (request_native self messages t p pp fp model stream Hp) in Hs.
    injection Hs as <- <-.
    split; [reflexivity|]. split; [reflexivity|]. split; [reflexivity|].
    split; [intros _; reflexivity|intros H; contradiction].
  - destruct (is_openai_compatible self) eqn:Hc.
    + destruct (request_openai self messages t p pp fp model stream Hp Hc)
        as [h' Hr].
      rewrite Hr in Hs. injection Hs as <- <-.
      split; [reflexivity|]. split; [reflexivity|]. split; [reflexivity|].
      split; [|intros _; split; reflexivity].
      intros Ho. rewrite (str_eqb_neq _ _ Ho). reflexivity.
    + rewrite (request_unsupported self messages _ model stream Hp Hc) in Hs.
      discriminate.
Qed.

Lemma body_chunks_provider
    (s1 s2 : client) (bound : bool) (chunks : list bytes) :
  provider s1 = provider s2 ->
  body_chunks s1 bound chunks = body_chunks s2 bound chunks.
Proof.
  intros Hp. revert bound.
  induction chunks as [|chunk chunks IH]; intros bound; [reflexivity|].
  cbn [ClaudeClient.body_chunks]. rewrite !IH.
  unfold body_frame. now rewrite Hp.
Qed.

(** X16: where the OpenAI-compatible flag changes nothing.  For
    ["openrouter"] and ["oneapi"] a call is the same with and without the
    flag; for ["anthropic"] a non-streaming call is the same with and
    without it, the body being read natively either way. *)
Theorem flag_irrelevant
    (api_key api_url provider : str) (flag : bool) (messages : list value)
    (model_arg : model_arg_t) (model : str) (stream : bool) :
  (provider = lit "openrouter" \/ provider = lit "oneapi" ->
   stream_chat (__init__ api_key api_url provider flag)
               messages model_arg model stream
   = stream_chat (__init__ api_key api_url provider false)
                 messages model_arg model stream) /\
  (provider = lit "anthropic" ->
   stream_chat (__init__ api_key api_url provider flag)
               messages model_arg model false
   = stream_chat (__init__ api_key api_url provider false)
                 messages model_arg model false).
Proof.
  split.
  - intros [-> | ->]; destruct flag; reflexivity.
  - intros ->. destruct flag; [|reflexivity].
    destruct model_arg as [[[t p] pp] fp].
    unfold ClaudeClient.stream_chat.
    rewrite !request_native by reflexivity.
    cbn [ClaudeClient.api_key __init__]. f_equal.
    now apply body_chunks_provider.
Qed.

Lemma stream_lines_payloads (self : client) (L : list str) :
  fst (stream_lines json_loads self L)
  = flat_map (ClaudeClient.stream_payload json_loads self) (payloads L).
Proof.
  induction L as [|line L IH]; [reflexivity|].
  rewrite stream_lines_cons. cbn [payloads]. unfold is_data_line.
  destruct (startswith (lit "data: ") line); [|exact IH].
  destruct (str_eqb (strip (slice_from 6 line)) (lit "[DONE]")); [reflexivity|].
  destruct (stream_lines json_loads self L) as [evs returned].
  cbn [fst flat_map] in *. now rewrite IH.
Qed.

(** X17: frames are handled one by one and in order: the events of a
    streamed run over chunks that decode are the events of the payloads of
    its data lines up to the first termination line, each taken alone,
    one after the other. *)
Theorem stream_events_by_frame
    (self : client) (chunks : list bytes) (texts : list str) :
  decoded chunks texts ->
  events (stream_chunks self chunks)
  = flat_map (ClaudeClient.stream_payload json_loads self)
             (payloads (flat_map (split LF) texts)).
Proof.
  intros Hd.
  destruct (stream_chunks_lines json_loads self chunks texts Hd) as (He & _).
  rewrite He. apply stream_lines_payloads.
Qed.

(** X18: when every chunk decodes and [json.loads] fails with
    [JSONDecodeError] only, a non-streamed run reads every chunk, ends
    normally, and its events are those of the bodies, each taken alone,
    one after the other. *)
Theorem body_events_by_chunk
    (self : client) (bound : bool) (chunks : list bytes) (texts : list str) :
  decoded chunks texts ->
  Forall (parses_or_rejects json_loads) texts ->
  body_chunks self bound chunks =
  {| events := flat_map (body_events json_loads self) texts;
     final := Finished;
     unread := [] |}.
Proof.
  intros Hd. revert bound.
  induction Hd as [|chunk text chunks texts Hc _ IH]; intros bound Hf;
    [reflexivity|].
  inversion Hf as [|? ? Hj Hf']; subst.
  cbn [ClaudeClient.body_chunks flat_map]. rewrite Hc.
  unfold body_events at 1.
  destruct (json_loads text) as [e|response] eqn:E.
  - rewrite (Hj e E). cbn [bind logged app]. now apply IH.
  - cbn [bind]. rewrite (IH true Hf'). reflexivity.
Qed.

End Calls.

(** ** More runs on wire data *)

Section MoreRuns.

Import Sample.

Local Open Scope string_scope.

Lemma no_LF (s : str) :
  forallb (fun c => negb (c =? LF)%N) s = true -> ~ In LF s.
Proof.
  rewrite forallb_forall. intros H Hin. specialize (H LF Hin).
  now rewrite N.eqb_refl in H.
Qed.

Lemma no_termination_line (self : client) (L : list str) :
  snd (stream_lines Json.loads self L) = false -> ~ Exists termination_line L.
Proof.
  intros Hs H. apply (returns_iff_termination_line Json.loads self) in H.
  congruence.
Qed.

Lemma openai_frame_event_iff_witness :
  exists evs,
    stream_lines Json.loads oneapi [data_line (Json.text (delta_chunk "ok"))]
      = (evs, false) /\
    evs = [answer (VStr (lit "ok"))].
Proof.
  destruct (openai_frame_event_iff Json.loads oneapi
              (Json.text (delta_chunk "ok")) (parsed_delta_chunk "ok"))
    as (evs & H1 & H2 & _).
  - reflexivity.
  - vm_compute. discriminate.
  - vm_compute. reflexivity.
  - exists evs. split; [exact H1|]. apply H2. split; reflexivity.
Defined.

Lemma native_body_event_iff_witness :
  exists evs,
    body_chunks Json.loads native false [Json.wire (body "hi")]
      = yields evs (body_chunks Json.loads native true []) /\
    evs = [answer (VStr (lit "hi"))].
Proof.
  destruct (native_body_event_iff Json.loads native false
              (Json.wire (body "hi")) [] (Json.text (body "hi"))
              (parsed_body "hi"))
    as (evs & H1 & H2 & _).
  - reflexivity.
  - vm_compute. reflexivity.
  - vm_compute. reflexivity.
  - exists evs. split; [exact H1|]. apply H2. split; reflexivity.
Defined.

Lemma listed_provider_body_event_iff_witness :
  exists evs,
    body_chunks Json.loads openrouter false [Json.wire (completion "hi")]
      = yields evs (body_chunks Json.loads openrouter true []) /\
    evs = [answer (VStr (lit "hi"))].
Proof.
  destruct (listed_provider_body_event_iff Json.loads openrouter false
              (Json.wire (completion "hi")) [] (Json.text (completion "hi"))
              (parsed_completion "hi"))
    as (evs & H1 & H2 & _).
  - left. reflexivity.
  - vm_compute. reflexivity.
  - vm_compute. reflexivity.
  - exists evs. split; [exact H1|]. apply H2. split; reflexivity.
Defined.

Lemma body_malformed_chunk_skipped_witness :
  events (body_chunks Json.loads native false
            ([Json.wire (body "a")] ++ Json.wire "<html>" :: [Json.wire (body "b")]))
    = events (body_chunks Json.loads native false
                ([Json.wire (body "a")] ++ [Json.wire (body "b")])) /\
  final (body_chunks Json.loads native false
           ([Json.wire (body "a")] ++ Json.wire "<html>" :: [Json.wire (body "b")]))
    = final (body_chunks Json.loads native false
               ([Json.wire (body "a")] ++ [Json.wire (body "b")])).
Proof.
  apply (body_malformed_chunk_skipped Json.loads native false
           [Json.wire (body "a")] [Json.wire (body "b")]
           (Json.wire "<html>") (Json.text "<html>")).
  - vm_compute. reflexivity.
  - vm_compute. reflexivity.
Defined.

Lemma undecodable_chunk_aborts_witness :
  stream_chunks Json.loads native
    ([Json.wire ("data: " ++ frame "Hel" ++ "|")]
     ++ garbage :: [Json.wire ("data: " ++ frame "lo" ++ "|")])
  = {| events := events (stream_chunks Json.loads native
                           [Json.wire ("data: " ++ frame "Hel" ++ "|")]);
       final := Raised UnicodeDecodeError;
       unread := [Json.wire ("data: " ++ frame "lo" ++ "|")] |}.
Proof.
  apply (undecodable_chunk_aborts Json.loads native _ _ garbage
           [Json.text ("data: " ++ frame "Hel" ++ "|")]).
  - repeat constructor.
  - vm_compute. reflexivity.
  - reflexivity.
Defined.

Lemma blank_chunk_skipped_witness :
  events (stream_chunks Json.loads native
            ([Json.wire ("data: " ++ frame "Hel" ++ "|")]
             ++ Json.wire " | " :: [Json.wire ("data: " ++ frame "lo" ++ "|")]))
    = events (stream_chunks Json.loads native
                ([Json.wire ("data: " ++ frame "Hel" ++ "|")]
                 ++ [Json.wire ("data: " ++ frame "lo" ++ "|")])) /\
  final (stream_chunks Json.loads native
           ([Json.wire ("data: " ++ frame "Hel" ++ "|")]
            ++ Json.wire " | " :: [Json.wire ("data: " ++ frame "lo" ++ "|")]))
    = final (stream_chunks Json.loads native
               ([Json.wire ("data: " ++ frame "Hel" ++ "|")]
                ++ [Json.wire ("data: " ++ frame "lo" ++ "|")])).
Proof.
  apply (blank_chunk_skipped Json.loads native _ _ (Json.wire " | ")
           (Json.text " | ")).
  - vm_compute. reflexivity.
  - vm_compute. reflexivity.
Defined.

Lemma same_lines_same_events_witness :
  events (stream_chunks Json.loads native
            [Json.wire ("data: " ++ frame "Hel" ++ "|");
             Json.wire ("data: " ++ frame "lo" ++ "|")])
    = events (stream_chunks Json.loads native
                [Json.wire ("data: " ++ frame "Hel" ++ "||data: "
                            ++ frame "lo" ++ "|")]) /\
  final (stream_chunks Json.loads native
           [Json.wire ("data: " ++ frame "Hel" ++ "|");
            Json.wire ("data: " ++ frame "lo" ++ "|")]) = Finished /\
  final (stream_chunks Json.loads native
           [Json.wire ("data: " ++ frame "Hel" ++ "||data: "
                       ++ frame "lo" ++ "|")]) = Finished.
Proof.
  apply (same_lines_same_events Json.loads native _ _
           [Json.text ("data: " ++ frame "Hel" ++ "|");
            Json.text ("data: " ++ frame "lo" ++ "|")]
           [Json.text ("data: " ++ frame "Hel" ++ "||data: "
                       ++ frame "lo" ++ "|")]).
  - repeat constructor.
  - repeat constructor.
  - vm_compute. reflexivity.
Defined.

Lemma fragmented_frame_dropped_witness :
  stream_chunks Json.loads native [Json.wire ("data: " ++ frame "Hel")] =
    {| events := [answer (VStr (lit "Hel"))]; final := Finished; unread := [] |} /\
  stream_chunks Json.loads native
    [Json.wire "data: {'type':'content_block_delta','delta':{'te";
     Json.wire "xt':'Hel'}}"] =
    {| events := []; final := Finished; unread := [] |}.
Proof.
  apply (fragmented_frame_dropped Json.loads native _ _ _
           (Json.text "{'type':'content_block_delta','delta':{'te")
           (Json.text "xt':'Hel'}}")
           (parsed_frame "Hel") (lit "Hel") JSONDecodeError).
  - reflexivity.
  - reflexivity.
  - vm_compute. reflexivity.
  - vm_compute. reflexivity.
  - vm_compute. reflexivity.
  - apply no_LF. vm_compute. reflexivity.
  - apply no_LF. vm_compute. reflexivity.
  - vm_compute. reflexivity.
  - vm_compute. reflexivity.
  - split; [reflexivity|]. eexists. split; reflexivity.
  - discriminate.
  - vm_compute. discriminate.
  - vm_compute. reflexivity.
  - vm_compute. discriminate.
Defined.

Lemma reads_all_without_termination_line_witness :
  final (stream_chunks Json.loads native
           [Json.wire ("data: " ++ frame "Hel" ++ "|");
            Json.wire ("data: " ++ frame "lo" ++ "|")]) = Finished /\
  unread (stream_chunks Json.loads native
            [Json.wire ("data: " ++ frame "Hel" ++ "|");
             Json.wire ("data: " ++ frame "lo" ++ "|")]) = [].
Proof.
  apply (reads_all_without_termination_line Json.loads native _
           [Json.text ("data: " ++ frame "Hel" ++ "|");
            Json.text ("data: " ++ frame "lo" ++ "|")]).
  - repeat constructor.
  - apply (no_termination_line native). vm_compute. reflexivity.
Defined.

Lemma frame_exceptions_witness : shape_error TypeError.
Proof.
  eapply (proj1 (frame_exceptions oneapi messages model_arg model true _
                   (VDict [(lit "choices", VInt 5)]) TypeError)).
  - reflexivity.
  - reflexivity.
Defined.

Lemma request_headers_witness :
  exists h d,
    sent (stream_chat Json.loads (transport []) openrouter messages
            model_arg model true) = Some (h, d) /\
    lookup (lit "Authorization") h = Some (lit "Bearer sk-test") /\
    lookup (lit "x-api-key") h = None /\
    lookup (lit "accept") h = None.
Proof.
  eexists. eexists. split; [reflexivity|].
  apply (proj1 (proj2 (request_headers Json.loads (transport []) openrouter
                         messages model_arg model true _ _ eq_refl))).
  discriminate.
Defined.

Lemma payload_passthrough_witness :
  exists h d,
    sent (stream_chat Json.loads (transport []) oneapi messages
            (0.5, 1, 0, 0)%float model true) = Some (h, d) /\
    lookup (lit "model") d = Some (VStr model).
Proof.
  eexists. eexists. split; [reflexivity|].
  apply (proj1 (proj2 (proj2 (proj2
           (payload_passthrough Json.loads (transport []) oneapi messages
              0.5 1 0 0 model true _ _ eq_refl))))).
  discriminate.
Defined.

Lemma flag_irrelevant_witness :
  stream_chat Json.loads (transport [Json.wire (completion "hi")])
    (__init__ (lit "sk-test") DEFAULT_API_URL (lit "oneapi") true)
    messages model_arg model false
  = stream_chat Json.loads (transport [Json.wire (completion "hi")])
      (__init__ (lit "sk-test") DEFAULT_API_URL (lit "oneapi") false)
      messages model_arg model false.
Proof.
  apply (proj1 (flag_irrelevant Json.loads
                  (transport [Json.wire (completion "hi")])
                  (lit "sk-test") DEFAULT_API_URL (lit "oneapi") true
                  messages model_arg model false)).
  right. reflexivity.
Defined.

Lemma body_events_by_chunk_witness :
  body_chunks Json.loads native false
    [Json.wire (body "a"); Json.wire "<html>"; Json.wire (body "b")]
  = {| events := flat_map (body_events Json.loads native)
                   [Json.text (body "a"); Json.text "<html>";
                    Json.text (body "b")];
       final := Finished;
       unread := [] |}.
Proof.
  apply (body_events_by_chunk Json.loads native false).
  - repeat constructor.
  - repeat constructor; intros e H; vm_compute in H;
      first [discriminate H|now injection H as <-].
Defined.

Lemma stream_events_by_frame_witness :
  events (stream_chunks Json.loads native
            [Json.wire ("data: " ++ frame "Hel" ++ "|");
             Json.wire ("data: " ++ frame "lo" ++ "||data: [DONE]|data: "
                        ++ frame "never" ++ "|")])
  = flat_map (stream_payload Json.loads native)
      (payloads
         (flat_map (split LF)
            [Json.text ("data: " ++ frame "Hel" ++ "|");
             Json.text ("data: " ++ frame "lo" ++ "||data: [DONE]|data: "
                        ++ frame "never" ++ "|")])).
Proof.
  apply (stream_events_by_frame Json.loads native).
  repeat constructor.
Defined.

(** A non-streamed run over bodies and an error page between them. *)
Example body_run :
  body_chunks Json.loads native false
    [Json.wire (body "a"); Json.wire "<html>"; Json.wire (body "b")]
  = {| events := [answer (VStr (lit "a")); answer (VStr (lit "b"))];
       final := Finished;
       unread := [] |}.
Proof. vm_compute. reflexivity. Qed.

End MoreRuns.
